(** * game_data.py: a model of the VGChartz scraper and its properties

    The script fetches listing pages with a retry loop ([fetch_url]), reads
    the number of results of a genre ([get_total_results]), turns the rows
    of a results table into records ([scrape_page]) and appends what it
    collected to a spreadsheet ([main]).

    Python values are modelled as follows.
    - [str] is a list of characters; a character is a code point below 256.
    - [int] is [Z]; the [float] of [total / RESULTS_PER_PAGE] is a binary64
      value of the Standard Library's [SpecFloat].
    - A call that can raise returns an [outcome].
    - The network, the clock and the console are a [world]: the number of
      requests made so far and the trace of effects, in program order. *)

From Stdlib Require Import ZArith Bool Ascii String Lia Arith List.
From Stdlib Require Import SpecFloat DecimalString Permutation.
From Stdlib Require DecimalZ.
Import ListNotations.

#[local] Set Warnings "-register-all".

Local Open Scope Z_scope.

(** ** Python strings *)

Definition str := list ascii.

(** A literal of the source. *)
Definition py (s : string) : str := list_ascii_of_string s.

Definition code (c : ascii) : Z := Z.of_nat (nat_of_ascii c).

Definition str_eqb (a b : str) : bool :=
  if list_eq_dec ascii_dec a b then true else false.

(** [str.isspace] on one character, also the class [\s] of [re]. *)
Definition is_space (c : ascii) : bool :=
  let n := code c in
  ((9 <=? n) && (n <=? 13)) || ((28 <=? n) && (n <=? 32))
  || (n =? 133) || (n =? 160).

(** The characters [int] skips around a numeral: it does not skip the
    separators 28 to 31. *)
Definition is_int_space (c : ascii) : bool :=
  let n := code c in
  ((9 <=? n) && (n <=? 13)) || (n =? 32) || (n =? 133) || (n =? 160).

(** The class [\d] of [re], and the digits [int] reads. *)
Definition is_digit (c : ascii) : bool :=
  let n := code c in (48 <=? n) && (n <=? 57).

Definition digit_value (c : ascii) : Z := code c - 48.

Fixpoint drop_while (p : ascii -> bool) (s : str) : str :=
  match s with
  | [] => []
  | c :: s' => if p c then drop_while p s' else s
  end.

Definition strip_with (p : ascii -> bool) (s : str) : str :=
  rev (drop_while p (rev (drop_while p s))).

(** [s.strip()] *)
Definition strip (s : str) : str := strip_with is_space s.

(** [s.startswith(p)], returning what follows [p]. *)
Fixpoint after_prefix (p s : str) : option str :=
  match p, s with
  | [], _ => Some s
  | a :: p', b :: s' => if Ascii.eqb a b then after_prefix p' s' else None
  | _ :: _, [] => None
  end.

Definition startswith (p s : str) : bool :=
  match after_prefix p s with Some _ => true | None => false end.

(** [sub in s], for a non-empty [sub]. *)
Fixpoint contains (sub s : str) : bool :=
  startswith sub s ||
  match s with
  | [] => false
  | _ :: s' => contains sub s'
  end.

(** [s.replace(old, new)] for a non-empty [old]: the occurrences of [old]
    are replaced from left to right and do not overlap.  [skip] counts the
    characters of an occurrence that remain to be passed over. *)
Fixpoint replace_from (old new : str) (skip : nat) (s : str) : str :=
  match s with
  | [] => []
  | c :: s' =>
      match skip with
      | S k => replace_from old new k s'
      | O =>
          if startswith old s
          then new ++ replace_from old new (List.length old - 1) s'
          else c :: replace_from old new 0 s'
      end
  end.

Definition replace (old new s : str) : str := replace_from old new 0 s.

(** The value of a sequence of decimal digits. *)
Definition digits_value (ds : str) : Z :=
  fold_left (fun acc c => 10 * acc + digit_value c) ds 0.

(** The digits of a numeral in which single underscores may separate
    digits; [after_digit] tells whether the previous character was a digit. *)
Fixpoint int_digits (after_digit : bool) (s : str) : option str :=
  match s with
  | [] => if after_digit then Some [] else None
  | c :: s' =>
      if is_digit c then option_map (cons c) (int_digits true s')
      else if Ascii.eqb c "_"%char
           then (if after_digit then int_digits false s' else None)
           else None
  end.

(** [sys.get_int_max_str_digits()] *)
Definition max_str_digits : nat := 4300.

(** [int(s)] for a string: [None] stands for [ValueError]. *)
Definition int_of_str (s : str) : option Z :=
  let t := strip_with is_int_space s in
  let '(negative, body) :=
    match t with
    | c :: r =>
        if Ascii.eqb c "-"%char then (true, r)
        else if Ascii.eqb c "+"%char then (false, r)
        else (false, t)
    | [] => (false, t)
    end in
  match int_digits false body with
  | Some ds =>
      if (List.length ds <=? max_str_digits)%nat
      then Some (if negative then - digits_value ds else digits_value ds)
      else None
  | None => None
  end.

(** [str(n)], as an f-string or [format] prints an [int]. *)
Definition str_of_int (n : Z) : str := py (NilZero.string_of_int (Z.to_int n)).

(** [range(a, b)] *)
Definition py_range (a b : Z) : list Z :=
  map (fun i => a + Z.of_nat i) (seq 0 (Z.to_nat (b - a))).

(** ** Outcomes and the world *)

Inductive exn : Type :=
| ValueError
| OverflowError
| ZeroDivisionError
| RequestException.

Inductive outcome (A : Type) : Type :=
| Return (a : A)
| Raise (e : exn).
Arguments Return {A} a.
Arguments Raise {A} e.

(** An object that is either a [str] or an [int], as
    [resp.headers.get("Retry-After", 30)] is. *)
Inductive str_or_int : Type :=
| PyStr (s : str)
| PyInt (n : Z).

(** [int(v)] *)
Definition py_int (v : str_or_int) : outcome Z :=
  match v with
  | PyInt n => Return n
  | PyStr s =>
      match int_of_str s with
      | Some n => Return n
      | None => Raise ValueError
      end
  end.

(** What [fetch_url] reads of a response. *)
Record response : Type := {
  status_code : Z;
  text : str;
  retry_after : option str   (* resp.headers.get("Retry-After") *)
}.

(** [requests.get] returns a response or raises. *)
Inductive http_result : Type :=
| Response (r : response)
| ConnectionFailed.

Inductive message : Type :=
| Msg429 (attempt max_retries : Z) (retry_after : str_or_int)
| MsgHttp (status attempt : Z).

Inductive event : Type :=
| EvJitter                       (* time.sleep(random.uniform(1, 3)) *)
| EvGet (url : str)              (* requests.get(url) *)
| EvPrint (m : message)
| EvSleep (seconds : Z).         (* time.sleep(seconds) *)

Record world : Type := {
  requests : nat;                (* requests made so far *)
  trace : list event             (* effects so far, oldest first *)
}.

Definition M (A : Type) : Type := world -> outcome A * world.

Definition ret {A} (a : A) : M A := fun w => (Return a, w).

Definition raise {A} (e : exn) : M A := fun w => (Raise e, w).

Definition bind {A B} (m : M A) (k : A -> M B) : M B :=
  fun w =>
    match m w with
    | (Return a, w') => k a w'
    | (Raise e, w') => (Raise e, w')
    end.

Definition lift {A} (o : outcome A) : M A := fun w => (o, w).

Definition emit (e : event) : M unit :=
  fun w => (Return tt, {| requests := requests w; trace := trace w ++ [e] |}).

Declare Scope py_scope.
Delimit Scope py_scope with py_do.
Notation "x <- m ;; k" := (bind m (fun x => k))
  (at level 100, m at next level, right associativity) : py_scope.
Notation "m ;; k" := (bind m (fun _ => k))
  (at level 100, right associativity) : py_scope.

(** ** The document tree of BeautifulSoup *)

(** A node is a string, a tag with its attributes and its children, or a
    string that [get_text] leaves out: a comment, a declaration, the text
    of a script.  The attributes are the [attrs] dictionary as a list; a
    name occurs once. *)
Inductive PageElement : Type :=
| NavigableString (s : str)
| Comment (s : str)
| Tag (name : str) (attrs : list (str * str)) (contents : list PageElement).

Definition is_tag (name : str) (e : PageElement) : bool :=
  match e with
  | Tag n _ _ => str_eqb n name
  | _ => false
  end.

(** [tag.get(key)]: [None] when the attribute is absent. *)
Fixpoint attrs_get (key : str) (attrs : list (str * str)) : option str :=
  match attrs with
  | [] => None
  | (k, v) :: rest => if str_eqb k key then Some v else attrs_get key rest
  end.

Definition tag_get (key : str) (e : PageElement) : option str :=
  match e with
  | Tag _ attrs _ => attrs_get key attrs
  | _ => None
  end.

(** [tag.get(key, default)] *)
Definition tag_get_default (key default : str) (e : PageElement) : str :=
  match tag_get key e with
  | Some v => v
  | None => default
  end.

(** The descendants of a node in document order, each with its ancestors,
    the nearest first; [above] are the ancestors of the node itself. *)
Fixpoint walk (above : list PageElement) (e : PageElement)
  : list (PageElement * list PageElement) :=
  match e with
  | Tag _ _ contents =>
      (fix children (cs : list PageElement) :=
         match cs with
         | [] => []
         | c :: cs' =>
             (c, e :: above) :: walk (e :: above) c ++ children cs'
         end) contents
  | _ => []
  end.

(** [tag.descendants] *)
Definition descendants (e : PageElement) : list PageElement :=
  map fst (walk [] e).

(** [tag.find_all(name)] *)
Definition find_all (name : str) (e : PageElement) : list PageElement :=
  filter (is_tag name) (descendants e).

(** [tag.find(...)]: the first descendant the filter accepts, with its
    ancestors. *)
Definition find_located (accepts : PageElement -> bool) (e : PageElement)
  : option (PageElement * list PageElement) :=
  find (fun d => accepts (fst d)) (walk [] e).

Definition find_first (accepts : PageElement -> bool) (e : PageElement)
  : option PageElement :=
  option_map fst (find_located accepts e).

(** [element.find_parent(name)], from the ancestors of the element. *)
Definition find_parent (name : str) (ancestors : list PageElement)
  : option PageElement :=
  find (is_tag name) ancestors.

(** [tag.string]: the single string below a tag, through single children. *)
Fixpoint dot_string (e : PageElement) : option str :=
  match e with
  | NavigableString s => Some s
  | Comment s => Some s
  | Tag _ _ [c] => dot_string c
  | Tag _ _ _ => None
  end.

(** The strings [get_text(strip=True)] joins: every descendant string that
    is not a comment, stripped, the empty ones left out. *)
Fixpoint stripped_strings (e : PageElement) : list str :=
  match e with
  | NavigableString s =>
      match strip s with
      | [] => []
      | t => [t]
      end
  | Comment _ => []
  | Tag _ _ contents =>
      (fix children (cs : list PageElement) :=
         match cs with
         | [] => []
         | c :: cs' => stripped_strings c ++ children cs'
         end) contents
  end.

(** [tag.get_text(strip=True)] *)
Definition get_text_strip (e : PageElement) : str :=
  concat (stripped_strings e).

(** ** Regular expressions *)

(** The fragment of [re] the script uses: literals, a greedy starred class
    and a greedy capturing group of one or more characters of a class. *)
Inductive re_item : Type :=
| ReLit (l : str)
| ReStar (cls : ascii -> bool)
| RePlusGroup (cls : ascii -> bool).

(** [cls*] followed by [k]: greedy, it first tries to take one more
    character and falls back to [k] at the current position. *)
Fixpoint star_then (cls : ascii -> bool) (k : str -> option (list str))
  (s : str) : option (list str) :=
  match s with
  | c :: s' =>
      if cls c
      then match star_then cls k s' with
           | Some groups => Some groups
           | None => k s
           end
      else k s
  | [] => k s
  end.

(** [(cls+)] followed by [k]; [taken] is what the group has taken so far.
    The group ends after a character only when taking more fails. *)
Fixpoint plus_group_then (cls : ascii -> bool) (k : str -> option (list str))
  (taken s : str) : option (list str) :=
  match s with
  | c :: s' =>
      if cls c
      then match plus_group_then cls k (taken ++ [c]) s' with
           | Some groups => Some groups
           | None => option_map (cons (taken ++ [c])) (k s')
           end
      else None
  | [] => None
  end.

(** Backtracking match of a sequence of items at the start of [s]; the
    result is the list of the groups. *)
Fixpoint re_match (items : list re_item) (s : str) : option (list str) :=
  match items with
  | [] => Some []
  | ReLit l :: rest =>
      match after_prefix l s with
      | Some s' => re_match rest s'
      | None => None
      end
  | ReStar cls :: rest => star_then cls (re_match rest) s
  | RePlusGroup cls :: rest => plus_group_then cls (re_match rest) [] s
  end.

(** [pattern.search(s)]: the match at the leftmost position that has one. *)
Fixpoint re_search (items : list re_item) (s : str) : option (list str) :=
  match re_match items s with
  | Some groups => Some groups
  | None =>
      match s with
      | [] => None
      | _ :: s' => re_search items s'
      end
  end.

(** ** Binary64 arithmetic *)

Definition float_of_int (z : Z) : spec_float :=
  match z with
  | Z0 => S754_zero false
  | Zpos p => S754_finite false p 0
  | Zneg p => S754_finite true p 0
  end.

(** [a / b] on integers: the binary64 nearest to the quotient, and
    [OverflowError] when that is out of range. *)
Definition true_div (a b : Z) : outcome spec_float :=
  if b =? 0 then Raise ZeroDivisionError
  else
    match SFdiv 53 1024 (float_of_int a) (float_of_int b) with
    | S754_infinity _ => Raise OverflowError
    | S754_nan => Raise ValueError
    | x => Return x
    end.

(** [math.ceil(x)] *)
Definition math_ceil (x : spec_float) : outcome Z :=
  match x with
  | S754_zero _ => Return 0
  | S754_finite s m e =>
      let v := if s then Zneg m else Zpos m in
      Return (if 0 <=? e then v * 2 ^ e else - ((- v) / 2 ^ (- e)))
  | S754_infinity _ => Raise OverflowError
  | S754_nan => Raise ValueError
  end.

(** ** The fetcher *)

Section Scraper.

(** [server k url] is what the [k]-th request of the run gets when it
    asks for [url]. *)
Variable server : nat -> str -> http_result.

(** [time.sleep] accepts a whole number of seconds from 0 to [sleep_max];
    the bound is the platform's (CPython raises [OverflowError] beyond
    the range of its 64-bit nanosecond clock). *)
Variable sleep_max : Z.

Definition requests_get (url : str) : M response :=
  fun w =>
    let w' := {| requests := S (requests w);
                 trace := trace w ++ [EvGet url] |} in
    match server (requests w) url with
    | Response r => (Return r, w')
    | ConnectionFailed => (Raise RequestException, w')
    end.

(** [time.sleep(seconds)] for an [int]: the seconds are first converted to
    nanoseconds on a signed 64-bit clock, with [OverflowError] when they
    are below its range; a negative length is then a [ValueError]. *)
Definition time_sleep (seconds : Z) : M unit :=
  if seconds * 10 ^ 9 <? - 2 ^ 63 then raise OverflowError
  else if seconds <? 0 then raise ValueError
  else if sleep_max <? seconds then raise OverflowError
  else emit (EvSleep seconds).

(** [resp.headers.get("Retry-After", 30)] *)
Definition headers_get_retry_after (resp : response) : str_or_int :=
  match retry_after resp with
  | Some s => PyStr s
  | None => PyInt 30
  end.

(** The body of [for attempt in range(1, max_retries + 1)], over the
    attempts that remain; the end of the list falls through to
    [return None]. *)
Fixpoint fetch_loop (url : str) (max_retries : Z) (attempts : list Z)
  : M (option str) :=
  match attempts with
  | [] => ret None
  | attempt :: rest =>
      (emit EvJitter ;;
       resp <- requests_get url ;;
       if status_code resp =? 200 then ret (Some (text resp))
       else if status_code resp =? 429 then
         let retry_after := headers_get_retry_after resp in
         (emit (EvPrint (Msg429 attempt max_retries retry_after)) ;;
          seconds <- lift (py_int retry_after) ;;
          time_sleep seconds ;;
          fetch_loop url max_retries rest)
       else
         (emit (EvPrint (MsgHttp (status_code resp) attempt)) ;;
          ret None))%py_do
  end.

Definition fetch_url (url : str) (max_retries : Z) : M (option str) :=
  fetch_loop url max_retries (py_range 1 (max_retries + 1)).

(** [fetch_url(url)] with the default [max_retries=5]. *)
Definition fetch_url_default (url : str) : M (option str) :=
  fetch_url url 5.


(** ** Count discovery *)

(** [BeautifulSoup(html, "html.parser")] *)
Variable BeautifulSoup : str -> PageElement.

(** [urllib.parse.quote_plus] *)
Variable quote_plus : str -> str.

Definition RESULTS_PER_PAGE : Z := 200.

(** [base_url] of [get_total_results] and of [main], after [format]. *)
Definition base_url (genre : str) : str :=
  py "https://www.vgchartz.com/games/games.php?"
  ++ py "name=&keyword=&console=&region=All&developer=&publisher=&goty_year=&genre="
  ++ quote_plus genre
  ++ py "&boxart=Both&banner=Both&ownership=Both&showmultiplat=No&results="
  ++ str_of_int RESULTS_PER_PAGE
  ++ py "&order=Popular"
  ++ py "&showtotalsales=0&showtotalsales=1&showpublisher=0&showpublisher=1&showvgchartzscore=0"
  ++ py "&shownasales=0&showdeveloper=0&showcriticscore=0&showpalsales=0&showreleasedate=0"
  ++ py "&showreleasedate=1&showuserscore=0&showjapansales=0&showlastupdate=0&showlastupdate=1"
  ++ py "&showothersales=0&showshipped=0&showshipped=1".

Definition page_url (genre : str) (page : Z) : str :=
  base_url genre ++ py "&page=" ++ str_of_int page.

Definition digit_or_comma (c : ascii) : bool :=
  is_digit c || Ascii.eqb c ","%char.

(** [Results:\s*\(([\d,]+)\)] *)
Definition results_label : list re_item :=
  [ReLit (py "Results:"); ReStar is_space; ReLit (py "(");
   RePlusGroup digit_or_comma; ReLit (py ")")].

(** The filter of [soup.find("th", text=re.compile(...))]: a [th] whose
    [.string] has a match. *)
Definition is_results_th (e : PageElement) : bool :=
  is_tag (py "th") e &&
  match dot_string e with
  | Some s =>
      match re_search results_label s with
      | Some _ => true
      | None => false
      end
  | None => false
  end.

(** [get_total_results] from [soup = BeautifulSoup(...)] on; a
    [ValueError] of [int] is caught and gives [None]. *)
Definition total_of_soup (soup : PageElement) : option Z :=
  match find_first is_results_th soup with
  | Some th =>
      let text := get_text_strip th in
      match re_search results_label text with
      | Some (group1 :: _) =>
          let total_str := replace (py ",") [] group1 in
          int_of_str total_str
      | _ => None
      end
  | None => None
  end.

(** [if html:] holds for a non-empty string. *)
Definition truthy (html : option str) : option str :=
  match html with
  | Some (c :: s) => Some (c :: s)
  | _ => None
  end.

Definition get_total_results (genre : str) : M (option Z) :=
  (html <- fetch_url (page_url genre 1) 5 ;;
   match truthy html with
   | Some h => ret (total_of_soup (BeautifulSoup h))
   | None => ret None
   end)%py_do.

(** ** Genre discovery *)

Definition genres_url : str := py "https://www.vgchartz.com/games/games.php".

(** The filter of [soup.find("select", attrs={"name": "genre"})]. *)
Definition is_genre_select (e : PageElement) : bool :=
  is_tag (py "select") e &&
  match tag_get (py "name") e with
  | Some v => str_eqb v (py "genre")
  | None => false
  end.

(** The loop [for option in options]: a blank value is skipped. *)
Fixpoint options_loop (options : list PageElement) (genres : list str)
  : list str :=
  match options with
  | [] => genres
  | option :: rest =>
      match strip (tag_get_default (py "value") [] option) with
      | [] => options_loop rest genres
      | value => options_loop rest (genres ++ [value])
      end
  end.

(** [get_genres] from [soup = BeautifulSoup(...)] on. *)
Definition genres_of_soup (soup : PageElement) : list str :=
  match find_first is_genre_select soup with
  | Some select => options_loop (find_all (py "option") select) []
  | None => []
  end.

Definition get_genres : M (list str) :=
  (html <- fetch_url genres_url 5 ;;
   match truthy html with
   | Some h => ret (genres_of_soup (BeautifulSoup h))
   | None => ret []
   end)%py_do.

(** ** The page scraper *)

(** A row of [rows_data], in the order of the columns of the table. *)
Record GameRecord : Type := {
  console : str;
  game : str;
  publisher : str;
  total_shipped : str;
  total_sales : str;
  release_date : str;
  last_update : str;
  genre_of : str
}.

(** The filter of [soup.find("th", string=lambda text: text and "Pos" in text)]. *)
Definition is_pos_th (e : PageElement) : bool :=
  is_tag (py "th") e &&
  match dot_string e with
  | Some s => negb (str_eqb s []) && contains (py "Pos") s
  | None => false
  end.

(** The filter of [find("img", alt=lambda x: x and x != "Boxart Missing")]. *)
Definition is_console_img (e : PageElement) : bool :=
  is_tag (py "img") e &&
  match tag_get (py "alt") e with
  | Some x => negb (str_eqb x []) && negb (str_eqb x (py "Boxart Missing"))
  | None => false
  end.

(** [cells[i]]; the script indexes below [len(cells)] only. *)
Definition cell (cells : list PageElement) (i : nat) : PageElement :=
  nth i cells (NavigableString []).

(** The loop [for c_idx in [2, 3]] over the indices that remain: [None] is
    Python's [None], left in [console] when no image is found. *)
Fixpoint console_loop (cells : list PageElement) (indices : list nat)
  : option str :=
  match indices with
  | [] => None
  | c_idx :: rest =>
      if (c_idx <? length cells)%nat then
        match find_first is_console_img (cell cells c_idx) with
        | Some img => Some (strip (tag_get_default (py "alt") [] img))
        | None => console_loop cells rest
        end
      else console_loop cells rest
  end.

(** The body of [for row in table_rows[1:]]: [None] is [continue]. *)
Definition scrape_row (genre : str) (row : PageElement) : option GameRecord :=
  let cells := find_all (py "td") row in
  if (length cells <? 9)%nat then None
  else
    let game_text := get_text_strip (cell cells 2) in
    let game_name := strip (replace (py "Read the review") [] game_text) in
    let console :=
      match console_loop cells [2%nat; 3%nat] with
      | Some (c :: s) => c :: s
      | _ => py "Unknown"
      end in
    Some {| console := console;
            game := game_name;
            publisher := get_text_strip (cell cells 4);
            total_shipped := get_text_strip (cell cells 5);
            total_sales := get_text_strip (cell cells 6);
            release_date := get_text_strip (cell cells 7);
            last_update := get_text_strip (cell cells 8);
            genre_of := genre |}.

Fixpoint rows_loop (genre : str) (rows : list PageElement)
  (rows_data : list GameRecord) : list GameRecord :=
  match rows with
  | [] => rows_data
  | row :: rest =>
      match scrape_row genre row with
      | Some record => rows_loop genre rest (rows_data ++ [record])
      | None => rows_loop genre rest rows_data
      end
  end.

(** [scrape_page] from [soup = BeautifulSoup(...)] on. *)
Definition rows_of_soup (genre : str) (soup : PageElement) : list GameRecord :=
  match find_located is_pos_th soup with
  | None => []
  | Some (header_th, ancestors) =>
      match find_parent (py "table") ancestors with
      | None => []
      | Some data_table =>
          let table_rows := find_all (py "tr") data_table in
          rows_loop genre (tl table_rows) []
      end
  end.

Definition scrape_page (url genre : str) : M (list GameRecord) :=
  (html <- fetch_url url 5 ;;
   match truthy html with
   | None => ret []
   | Some h => ret (rows_of_soup genre (BeautifulSoup h))
   end)%py_do.

(** ** The orchestrator *)

(** The pages of a genre are scraped by the threads of a pool, so [main] is
    modelled over what its calls return in the run: the totals, the rows or
    the exception each submitted call ends with, and the order in which
    the pool completes what was submitted. *)
Variable total_results : str -> outcome (option Z).
Variable page_result : str -> str -> outcome (list GameRecord).

Record PageTask : Type := {
  task_url : str;
  task_genre : str;
  task_page : Z
}.

Variable as_completed : list PageTask -> list PageTask.

(** [math.ceil(total / RESULTS_PER_PAGE)] *)
Definition total_pages (total : Z) : outcome Z :=
  match true_div total RESULTS_PER_PAGE with
  | Return x => math_ceil x
  | Raise e => Raise e
  end.

(** [executor.submit(scrape_page, url, genre)] for [page]. *)
Definition submit (genre : str) (page : Z) : PageTask :=
  {| task_url := page_url genre page; task_genre := genre; task_page := page |}.

(** The loop over [as_completed]: an exception of a page is printed and
    the page gives no rows. *)
Fixpoint collect (completed : list PageTask) (genre_data : list GameRecord)
  : list GameRecord :=
  match completed with
  | [] => genre_data
  | task :: rest =>
      match page_result (task_url task) (task_genre task) with
      | Return page_data => collect rest (genre_data ++ page_data)
      | Raise _ => collect rest genre_data
      end
  end.

(** [for genre in genres], with the tasks submitted so far. *)
Fixpoint genres_loop (genres : list str) (all_data : list GameRecord)
  (submitted : list PageTask) : outcome (list GameRecord * list PageTask) :=
  match genres with
  | [] => Return (all_data, submitted)
  | genre :: rest =>
      match total_results genre with
      | Raise e => Raise e
      | Return None => genres_loop rest all_data submitted
      | Return (Some total) =>
          match total_pages total with
          | Raise e => Raise e
          | Return pages =>
              let tasks := map (submit genre) (py_range 1 (pages + 1)) in
              let genre_data := collect (as_completed tasks) [] in
              genres_loop rest (all_data ++ genre_data) (submitted ++ tasks)
          end
      end
  end.

(** [main] over tables of texts: from the genres [get_genres()] returned
    and the rows of [df_existing], if the file exists, to the rows of the
    table the run leaves.  The rows of [df_existing] are taken as records
    of texts, as [pd.read_excel] returns them when it reads no cell as
    missing or as a number; [main_on_file] below is [main] with the
    reading of the file. *)
Definition main (genres : list str) (excel_file : option (list GameRecord))
  : outcome (option (list GameRecord)) :=
  match genres with
  | [] => Return excel_file
  | _ :: _ =>
      match genres_loop genres [] [] with
      | Raise e => Raise e
      | Return (all_data, _) =>
          let df_current := all_data in
          match excel_file with
          | Some df_existing => Return (Some (df_existing ++ df_current))
          | None => Return (Some df_current)
          end
      end
  end.

(** ** The file *)

(** A cell of the sheet and of a data frame: a text; the missing value,
    [NaN] in a frame and an empty cell in the sheet; or the number or the
    truth value that the type inference of [pd.read_excel] made of the
    text [s]. *)
Inductive frame_cell : Type :=
| Str (s : str)
| NaN
| Inferred (s : str).

(** A row of the sheet or of a frame, in the order of the columns. *)
Definition FrameRow : Type := list frame_cell.

(** The strings that [pd.read_excel] reads as missing when it is called
    without [na_values] and [keep_default_na]: the default list of the
    installed pandas. *)
Variable na_values : list str.

(** Whether the type inference of [pd.read_excel] finds a column to hold
    numbers only or truth values only, the missing cells apart. *)
Variable infers : list frame_cell -> bool.

Definition is_na (s : str) : bool := existsb (str_eqb s) na_values.

(** What [pd.read_excel] makes of a cell of a column. *)
Definition read_cell (column : list frame_cell) (c : frame_cell)
  : frame_cell :=
  match c with
  | Str s =>
      if is_na s then NaN
      else if infers column then Inferred s
      else Str s
  | NaN => NaN
  | Inferred s => Inferred s
  end.

(** The column [j] of a sheet. *)
Definition column_of (j : nat) (sheet : list FrameRow) : list frame_cell :=
  map (fun row => nth j row NaN) sheet.

(** The cells of a row from column [j] on, as they are read. *)
Fixpoint read_row (sheet : list FrameRow) (j : nat) (row : FrameRow)
  : FrameRow :=
  match row with
  | [] => []
  | c :: rest => read_cell (column_of j sheet) c :: read_row sheet (S j) rest
  end.

(** [pd.read_excel(excel_file)] on the rows below the header of a sheet
    that [to_excel] wrote. *)
Definition read_excel (sheet : list FrameRow) : list FrameRow :=
  map (read_row sheet 0) sheet.

(** A row of [pd.DataFrame(all_data, columns=[...])]: the texts as they
    were scraped. *)
Definition frame_row (record : GameRecord) : FrameRow :=
  [Str (console record); Str (game record); Str (publisher record);
   Str (total_shipped record); Str (total_sales record);
   Str (release_date record); Str (last_update record);
   Str (genre_of record)].

Definition DataFrame (all_data : list GameRecord) : list FrameRow :=
  map frame_row all_data.

(** [main], from the genres [get_genres()] returned and the sheet of
    [vgchartz_games.xlsx], if the file exists, to the sheet of the file
    after the run: [to_excel] writes a frame cell by cell. *)
Definition main_on_file (genres : list str)
  (excel_file : option (list FrameRow)) : outcome (option (list FrameRow)) :=
  match genres with
  | [] => Return excel_file
  | _ :: _ =>
      match genres_loop genres [] [] with
      | Raise e => Raise e
      | Return (all_data, _) =>
          let df_current := DataFrame all_data in
          match excel_file with
          | Some sheet =>
              let df_existing := read_excel sheet in
              let df_combined := df_existing ++ df_current in
              Return (Some df_combined)
          | None => Return (Some df_current)
          end
      end
  end.

End Scraper.

(** ** Notions the properties are stated with *)

(** A plain decimal numeral that [int] accepts: the form of a delay in
    seconds in a [Retry-After] header. *)
Definition is_numeral (ds : str) : Prop :=
  ds <> [] /\ Forall (fun c => is_digit c = true) ds
  /\ (length ds <= max_str_digits)%nat.

(** The delay a throttling response asks for: the header's seconds, or 30
    when the header is absent. *)
Definition retry_delay (r : response) : Z :=
  match retry_after r with
  | Some ds => digits_value ds
  | None => 30
  end.

(** A response with status 429 whose delay is a duration [time.sleep]
    accepts. *)
Definition throttled (sleep_max : Z) (r : response) : Prop :=
  status_code r = 429
  /\ match retry_after r with Some ds => is_numeral ds | None => True end
  /\ retry_delay r <= sleep_max.

(** The effects of one throttled attempt, in order. *)
Definition throttled_attempt (url : str) (max_retries : Z)
  (numbered : Z * response) : list event :=
  let '(attempt, r) := numbered in
  [EvJitter; EvGet url;
   EvPrint (Msg429 attempt max_retries (headers_get_retry_after r));
   EvSleep (retry_delay r)].

(** The number of requests in a trace. *)
Definition count_gets (t : list event) : nat :=
  length (filter (fun e => match e with EvGet _ => true | _ => false end) t).


(** [img.get("alt", "")] *)
Definition alt_of (img : PageElement) : str :=
  tag_get_default (py "alt") [] img.

(** The image the console is read from: the first accepted image below
    cell 2, and below cell 3 when cell 2 has none. *)
Definition first_console_img (cells : list PageElement)
  : option PageElement :=
  match find_first is_console_img (cell cells 2) with
  | Some img => Some img
  | None => find_first is_console_img (cell cells 3)
  end.

(** [old] occurs in [name ++ old] at the end only. *)
Definition only_at_end (old name : str) : Prop :=
  forall i, (i < length name)%nat ->
            startswith old (skipn i (name ++ old)) = false.

(** [s] without the suffix [suffix], when it ends with it. *)
Definition remove_suffix (suffix s : str) : str :=
  match after_prefix (rev suffix) (rev s) with
  | Some r => rev r
  | None => s
  end.

(** The game field in the words of the specification: the text of the name
    cell with the suffix "Read the review" stripped. *)
Definition spec_game_name (name_text : str) : str :=
  strip (remove_suffix (py "Read the review") name_text).

(** The console field in the words of the specification: the alt text of
    the first matching image, or "Unknown" when none matches. *)
Definition spec_console (cells : list PageElement) : str :=
  match first_console_img cells with
  | Some img => alt_of img
  | None => py "Unknown"
  end.

(** The number of digits of a string. *)
Definition digits_of (s : str) : str := filter is_digit s.



(** What the specification says of the game and the console of a row. *)
Definition row_as_specified (genre : str) (row : PageElement) : Prop :=
  let cells := find_all (py "td") row in
  exists record,
    scrape_row genre row = Some record
    /\ game record = spec_game_name (get_text_strip (cell cells 2))
    /\ console record = spec_console cells.

(** The ceiling of [total / n] in exact arithmetic, for a positive [n]. *)
Definition ceiling_div (total n : Z) : Z := - ((- total) / n).

(** Whether a location is off the exact value. *)
Definition inexact (l : location) : bool :=
  match l with
  | loc_Exact => false
  | loc_Inexact _ => true
  end.

(** ** Notions of the further properties *)

(** An answer after which [fetch_url] goes on or returns: a response that,
    when it is a 429, asks for a delay [time.sleep] accepts. *)
Definition well_formed_answer (sleep_max : Z) (h : http_result) : Prop :=
  match h with
  | Response r => status_code r = 429 -> throttled sleep_max r
  | ConnectionFailed => False
  end.

(** The world after the request of an attempt. *)
Definition after_get (url : str) (w : world) : world :=
  {| requests := S (requests w);
     trace := (trace w ++ [EvJitter]) ++ [EvGet url] |}.

(** The world after one more effect. *)
Definition after_event (e : event) (w : world) : world :=
  {| requests := requests w; trace := trace w ++ [e] |}.

(** A string that neither starts nor ends with whitespace. *)
Definition trimmed (s : str) : Prop :=
  match s with
  | [] => True
  | c :: _ => is_space c = false /\ is_space (last s c) = false
  end.

(** [option.get("value", "").strip()] *)
Definition option_value (option : PageElement) : str :=
  strip (tag_get_default (py "value") [] option).

Definition nonempty (s : str) : bool :=
  match s with
  | [] => false
  | _ :: _ => true
  end.

(** The records a row gives: one, or none. *)
Definition row_records (genre : str) (row : PageElement) : list GameRecord :=
  match scrape_row genre row with
  | Some record => [record]
  | None => []
  end.


(** The fields of a record that are read from the page. *)
Definition scraped_fields (record : GameRecord) : list str :=
  [console record; game record; publisher record; total_shipped record;
   total_sales record; release_date record; last_update record].

(** The rows a completed task adds: those of its page, or none when the
    call ended with an exception. *)
Definition rows_of_task (page_result : str -> str -> outcome (list GameRecord))
  (task : PageTask) : list GameRecord :=
  match page_result (task_url task) (task_genre task) with
  | Return page_data => page_data
  | Raise _ => []
  end.

(** ** Concrete runs *)

Definition listing : str := py "https://www.vgchartz.com/games/games.php".

(** A world in which nothing has happened yet. *)
Definition fresh : world := {| requests := 0; trace := [] |}.

(** A server that answers the requests of a run with the given responses,
    in order, and fails to connect afterwards. *)
Definition answering (rs : list response) : nat -> str -> http_result :=
  fun k _ =>
    match nth_error rs k with
    | Some r => Response r
    | None => ConnectionFailed
    end.

Definition too_many_requests (header : option str) : response :=
  {| status_code := 429; text := []; retry_after := header |}.

(** Five throttling answers, with and without a delay in seconds. *)
Definition throttling : list response :=
  [too_many_requests None; too_many_requests (Some (py "2"));
   too_many_requests (Some (py "120")); too_many_requests None;
   too_many_requests (Some (py "0"))].

Definition service_unavailable : response :=
  {| status_code := 503; text := py "try later"; retry_after := None |}.

(** A throttling answer whose Retry-After is a date, the other form the
    header has in HTTP. *)
Definition retry_at_date : response :=
  too_many_requests (Some (py "Wed, 21 Oct 2015 07:28:00 GMT")).

(** One day, as a bound on the sleeps of the examples. *)
Definition one_day : Z := 86400.

(** A response that is [throttled], by evaluation. *)
Ltac check_throttled :=
  split; [reflexivity|];
  split;
  [ first [ exact I
          | split; [discriminate|];
            split; [repeat (apply Forall_cons; [reflexivity|]); apply Forall_nil
                   | apply Nat.leb_le; reflexivity ] ]
  | apply Z.leb_le; reflexivity ].

(** A run over two genres: 450 results for the first, none for the
    second; every page gives one row and the pool completes the pages in
    the reverse of the order of submission. *)
Definition action : str := py "Action".
Definition puzzle : str := py "Puzzle".

Definition same_text (s : str) : str := s.

Definition demo_totals (genre : str) : outcome (option Z) :=
  if str_eqb genre action then Return (Some 450)
  else if str_eqb genre puzzle then Return (Some 0)
  else Return None.

Definition demo_row (genre : str) : GameRecord :=
  {| console := py "PS4"; game := py "Super Game"; publisher := py "Acme";
     total_shipped := py "1.00m"; total_sales := py "N/A";
     release_date := py "01st Jan 20"; last_update := py "02nd Feb 21";
     genre_of := genre |}.

Definition demo_pages (url genre : str) : outcome (list GameRecord) :=
  Return [demo_row genre].

Definition reversed (tasks : list PageTask) : list PageTask := rev tasks.

Definition old_table : list GameRecord :=
  [demo_row (py "Sports"); demo_row (py "Racing")].

(** The strings pandas 2 reads as missing by default. *)
Definition pandas_na_values : list str :=
  [[]; py "#N/A"; py "#N/A N/A"; py "#NA"; py "-1.#IND"; py "-1.#QNAN";
   py "-NaN"; py "-nan"; py "1.#IND"; py "1.#QNAN"; py "<NA>"; py "N/A";
   py "NA"; py "NULL"; py "NaN"; py "None"; py "n/a"; py "nan"; py "null"].

(** The type inference on sheets no column of which holds numbers only
    or truth values only, as the sheets of the examples are. *)
Definition no_inference (column : list frame_cell) : bool := false.

(** A listing page: a table with the label of the count, and the table of
    the results with its header row, a row that is too short, a row with a
    review link and no console image, and a row whose name repeats the
    words of the link and whose image has a blank alt text. *)
Definition element (name : string) (contents : list PageElement)
  : PageElement :=
  Tag (py name) [] contents.

Definition string_of (s : string) : PageElement := NavigableString (py s).

Definition td (s : string) : PageElement := element "td" [string_of s].

Definition img (alt : string) : PageElement :=
  Tag (py "img") [(py "alt", py alt)] [].

Definition results_th : PageElement :=
  element "th" [string_of " Results: (12,345) "].

Definition header_row : PageElement :=
  element "tr" [element "th" [string_of "Pos"];
                element "th" [string_of "Game"]].

Definition short_row : PageElement :=
  element "tr" [td "2"; td "no data"].

Definition super_game_row : PageElement :=
  element "tr"
    [td "1"; td "";
     element "td" [img "Boxart Missing";
                   element "a" [string_of "Super Game Read the review"]];
     td ""; td "Acme"; td "1.00m"; td "N/A"; td "01st Jan 20";
     td "02nd Feb 21"].

Definition club_row : PageElement :=
  element "tr"
    [td "3"; td "";
     element "td" [img " "; element "a" [string_of "Read the review Club"]];
     element "td" [img "PS4"]; td "Acme"; td "N/A"; td "0.10m";
     td "03rd Mar 19"; td "N/A"].

Definition listing_page : PageElement :=
  element "[document]"
    [element "html"
       [element "body"
          [element "table" [element "tr" [results_th]];
           element "table"
             [header_row; short_row; super_game_row; club_row]]]].

Definition parse_listing (html : str) : PageElement := listing_page.



Definition ok_page : response :=
  {| status_code := 200; text := py "<html>"; retry_after := None |}.

(** A server that answers with the given responses and with the listing
    page ever after. *)
Definition then_ok (rs : list response) : nat -> str -> http_result :=
  fun k _ => Response (nth k rs ok_page).

(** The search form: a blank first option, values with spaces around them,
    and a value that occurs twice. *)
Definition genre_option (value : string) : PageElement :=
  Tag (py "option") [(py "value", py value)] [string_of value].

Definition genre_select : PageElement :=
  Tag (py "select") [(py "name", py "genre")]
      [genre_option ""; genre_option " Action "; genre_option "Puzzle";
       genre_option "   "; genre_option "Action"].

Definition form_page : PageElement :=
  element "[document]"
    [element "html"
       [element "body"
          [Tag (py "select") [(py "name", py "console")]
               [genre_option "PS4"];
           genre_select]]].

Definition parse_form (html : str) : PageElement := form_page.

(** Pages of which the second fails. *)
Definition flaky_pages (url genre : str) : outcome (list GameRecord) :=
  if str_eqb url (page_url same_text genre 2)
  then Raise RequestException
  else Return [demo_row genre].

(** Totals of which the one of the second genre cannot be read. *)
Definition broken_totals (genre : str) : outcome (option Z) :=
  if str_eqb genre puzzle then Raise ValueError else demo_totals genre.
(** ** Python strings: lemmas *)

Lemma drop_while_head (p : ascii -> bool) (c : ascii) (s : str) :
  p c = false -> drop_while p (c :: s) = c :: s.
Proof. intros H. simpl. now rewrite H. Qed.

Lemma strip_with_none (p : ascii -> bool) (s : str) :
  Forall (fun c => p c = false) s -> strip_with p s = s.
Proof.
  intros H. unfold strip_with.
  assert (D : forall t, Forall (fun c => p c = false) t -> drop_while p t = t).
  { intros [|c t] Ht; [reflexivity|].
    apply drop_while_head. now inversion Ht. }
  rewrite (D s H), D, rev_involutive; [reflexivity|].
  now apply Forall_rev.
Qed.

Lemma digit_not_int_space (c : ascii) :
  is_digit c = true -> is_int_space c = false.
Proof.
  unfold is_digit, is_int_space. intros H.
  apply andb_true_iff in H. destruct H as [H1 H2].
  apply Z.leb_le in H1. apply Z.leb_le in H2.
  repeat (apply orb_false_iff; split);
    try (apply andb_false_iff; right; apply Z.leb_gt; lia);
    apply Z.eqb_neq; lia.
Qed.

Lemma digit_not_sign (c : ascii) :
  is_digit c = true ->
  Ascii.eqb c "-"%char = false /\ Ascii.eqb c "+"%char = false
  /\ Ascii.eqb c ","%char = false.
Proof.
  intros H.
  repeat split; apply Ascii.eqb_neq; intros ->; discriminate H.
Qed.

Lemma int_digits_all (ds : str) :
  Forall (fun c => is_digit c = true) ds ->
  forall b, (ds <> [] \/ b = true) -> int_digits b ds = Some ds.
Proof.
  induction 1 as [|c ds Hc Hds IH]; intros b Hb; simpl.
  - destruct Hb as [Hb | ->]; [contradiction | reflexivity].
  - rewrite Hc, (IH true); [reflexivity | now right].
Qed.

Lemma digits_value_snoc (ds : str) (c : ascii) :
  digits_value (ds ++ [c]) = 10 * digits_value ds + digit_value c.
Proof. unfold digits_value. now rewrite fold_left_app. Qed.

Lemma digits_value_nonneg (ds : str) :
  Forall (fun c => is_digit c = true) ds -> 0 <= digits_value ds.
Proof.
  induction ds as [|c ds IH] using rev_ind; intros H.
  - reflexivity.
  - apply Forall_app in H. destruct H as [H1 H2].
    rewrite digits_value_snoc. specialize (IH H1).
    inversion H2 as [|? ? Hc _]; subst.
    unfold is_digit in Hc. apply andb_true_iff in Hc.
    destruct Hc as [Hc _]. apply Z.leb_le in Hc.
    unfold digit_value. lia.
Qed.

Lemma drop_while_suffix (p : ascii -> bool) (s : str) :
  exists skipped, s = skipped ++ drop_while p s.
Proof.
  induction s as [|c s IH]; [now exists []|].
  cbn. destruct (p c).
  - destruct IH as (skipped & IH). exists (c :: skipped). cbn. now f_equal.
  - now exists [].
Qed.


(** [int] reads a plain decimal numeral as its value. *)
Lemma int_of_str_numeral (ds : str) :
  is_numeral ds -> int_of_str ds = Some (digits_value ds).
Proof.
  intros (Hne & Hds & Hlen). unfold int_of_str.
  rewrite strip_with_none
    by (eapply Forall_impl; [|exact Hds]; apply digit_not_int_space).
  destruct ds as [|c ds]; [contradiction|].
  assert (Hc : is_digit c = true) by now inversion Hds.
  destruct (digit_not_sign c Hc) as (-> & -> & _).
  rewrite int_digits_all by (auto; now left).
  apply Nat.leb_le in Hlen. now rewrite Hlen.
Qed.


Lemma length_py_range (a b : Z) : length (py_range a b) = Z.to_nat (b - a).
Proof. unfold py_range. now rewrite length_map, length_seq. Qed.

Lemma in_py_range (a b x : Z) : In x (py_range a b) <-> a <= x < b.
Proof.
  unfold py_range. rewrite in_map_iff. split.
  - intros (i & <- & Hi). apply in_seq in Hi. lia.
  - intros H. exists (Z.to_nat (x - a)). split; [lia|].
    apply in_seq. lia.
Qed.


Lemma after_prefix_app (l s : str) : after_prefix l (l ++ s) = Some s.
Proof.
  induction l as [|c l IH]; [reflexivity|].
  cbn. now rewrite Ascii.eqb_refl.
Qed.

Lemma startswith_self (l : str) : startswith l l = true.
Proof.
  unfold startswith.
  rewrite <- (app_nil_r l) at 2. now rewrite after_prefix_app.
Qed.

Lemma replace_from_skip_all (old new : str) :
  forall (s : str) (k : nat),
    (length s <= k)%nat -> replace_from old new k s = [].
Proof.
  induction s as [|c s IH]; intros k Hk; [reflexivity|].
  destruct k as [|k]; [cbn in Hk; lia|].
  cbn. apply IH. cbn in Hk. lia.
Qed.

(** Removing a phrase that occurs at the end only leaves what precedes it. *)
Lemma replace_only_at_end (old name : str) :
  only_at_end old name -> replace old [] (name ++ old) = name.
Proof.
  unfold replace. induction name as [|c name IH]; intros Hend.
  - destruct old as [|a old]; [reflexivity|].
    cbn [app replace_from]. rewrite startswith_self.
    cbn [app]. apply replace_from_skip_all. cbn [length]. lia.
  - pose proof (Hend 0%nat) as H0. cbn [skipn app length] in H0.
    cbn [app replace_from]. rewrite H0 by lia.
    f_equal. apply IH. intros i Hi.
    apply (Hend (S i)). cbn. lia.
Qed.

Lemma digit_or_comma_cases (c : ascii) :
  digit_or_comma c = true ->
  (is_digit c = true /\ Ascii.eqb c ","%char = false)
  \/ (is_digit c = false /\ c = ","%char).
Proof.
  unfold digit_or_comma. intros H.
  destruct (is_digit c) eqn:Hd.
  - left. split; [reflexivity|]. now apply digit_not_sign.
  - right. split; [reflexivity|]. now apply Ascii.eqb_eq.
Qed.

(** Removing the commas of a group of digits and commas leaves its digits. *)
Lemma replace_commas (body : str) :
  Forall (fun c => digit_or_comma c = true) body ->
  replace (py ",") [] body = digits_of body.
Proof.
  unfold replace, digits_of. change (py ",") with [","%char].
  induction 1 as [|c body Hc _ IH]; [reflexivity|].
  cbn [replace_from filter]. unfold startswith. cbn [after_prefix].
  destruct (digit_or_comma_cases c Hc) as [[Hd Hn] | [Hd ->]].
  - rewrite Hd, Ascii.eqb_sym, Hn. now rewrite IH.
  - rewrite Hd, Ascii.eqb_refl. cbn [length Nat.sub app]. exact IH.
Qed.

(** ** Regular expressions: lemmas *)





(** ** The fetcher: properties *)

Section FetcherProperties.

Variable server : nat -> str -> http_result.
Variable sleep_max : Z.

Lemma fetch_loop_throttled (url : str) (max_retries : Z) :
  forall (attempts : list Z) (rs : list response) (w : world),
    length attempts = length rs ->
    (forall i r, nth_error rs i = Some r ->
                 server (requests w + i)%nat url = Response r) ->
    Forall (throttled sleep_max) rs ->
    fetch_loop server sleep_max url max_retries attempts w =
    (Return None,
     {| requests := requests w + length rs;
        trace := trace w
                 ++ concat (map (throttled_attempt url max_retries)
                                (combine attempts rs)) |}).
Proof.
  induction attempts as [|attempt attempts IH]; intros [|r rs] w Hlen Hsrv Hok;
    try discriminate Hlen.
  - simpl. unfold ret. destruct w as [n t]. simpl.
    now rewrite Nat.add_0_r, app_nil_r.
  - inversion Hok as [|? ? (Hst & Hnum & Hmax) Hok']; subst.
    pose proof (Hsrv 0%nat r eq_refl) as H0. rewrite Nat.add_0_r in H0.
    assert (Hint : py_int (headers_get_retry_after r) = Return (retry_delay r)).
    { unfold headers_get_retry_after, retry_delay.
      destruct (retry_after r) as [ds|]; simpl; [|reflexivity].
      now rewrite int_of_str_numeral. }
    assert (Hpos : 0 <= retry_delay r).
    { unfold retry_delay. destruct (retry_after r) as [ds|]; [|lia].
      apply digits_value_nonneg. apply Hnum. }
    cbn [fetch_loop]. unfold bind at 1. cbn [emit].
    unfold bind at 1. unfold requests_get. cbn [requests trace].
    rewrite H0, Hst. cbn [Z.eqb Pos.eqb].
    unfold bind at 1. cbn [emit requests trace].
    unfold bind at 1. unfold lift. rewrite Hint.
    unfold bind at 1. unfold time_sleep.
    destruct (Z.ltb_spec (retry_delay r * 10 ^ 9) (- 2 ^ 63)) as [?|_];
      [lia|].
    destruct (Z.ltb_spec (retry_delay r) 0) as [?|_]; [lia|].
    destruct (Z.ltb_spec sleep_max (retry_delay r)) as [?|_]; [lia|].
    cbn [emit requests trace].
    rewrite IH with (rs := rs); cbn [requests trace].
    + f_equal. f_equal.
      * cbn [length]. lia.
      * cbn [combine map concat throttled_attempt].
        rewrite <- !app_assoc. reflexivity.
    + now injection Hlen.
    + intros i r' Hi.
      replace (S (requests w) + i)%nat with (requests w + S i)%nat by lia.
      now apply Hsrv.
    + exact Hok'.
Qed.

Lemma count_gets_app (t u : list event) :
  count_gets (t ++ u) = (count_gets t + count_gets u)%nat.
Proof. unfold count_gets. now rewrite filter_app, length_app. Qed.

Lemma count_gets_throttled (url : str) (max_retries : Z) :
  forall numbered,
    count_gets (concat (map (throttled_attempt url max_retries) numbered))
    = length numbered.
Proof.
  induction numbered as [|[attempt r] numbered IH]; [reflexivity|].
  cbn [map concat]. rewrite count_gets_app, IH. reflexivity.
Qed.

(** C1. When every attempt is answered with status 429 and a delay that is
    a duration (the seconds of the Retry-After header, or 30 when the header
    is absent), [fetch_url] makes exactly [max_retries] requests, sleeps the
    delay of each answer before going on to the next attempt, and then
    returns [None]; with the default ceiling that is 5 requests. *)
Theorem fetch_url_throttled_until_ceiling
  (url : str) (max_retries : Z) (rs : list response) (w : world) :
  length rs = Z.to_nat max_retries ->
  (forall i r, nth_error rs i = Some r ->
               server (requests w + i)%nat url = Response r) ->
  Forall (throttled sleep_max) rs ->
  let added :=
    concat (map (throttled_attempt url max_retries)
                (combine (py_range 1 (max_retries + 1)) rs)) in
  fetch_url server sleep_max url max_retries w =
    (Return None,
     {| requests := requests w + Z.to_nat max_retries;
        trace := trace w ++ added |})
  /\ count_gets added = Z.to_nat max_retries
  /\ (max_retries = 5 ->
      fetch_url_default server sleep_max url w =
        (Return None,
         {| requests := requests w + 5; trace := trace w ++ added |})).
Proof.
  intros Hlen Hsrv Hok added.
  assert (Hrange : length (py_range 1 (max_retries + 1)) = length rs).
  { rewrite length_py_range, Hlen. f_equal. lia. }
  assert (Hrun : fetch_url server sleep_max url max_retries w =
    (Return None,
     {| requests := requests w + Z.to_nat max_retries;
        trace := trace w ++ added |})).
  { unfold fetch_url.
    rewrite (fetch_loop_throttled url max_retries _ rs w Hrange Hsrv Hok).
    now rewrite Hlen. }
  split; [exact Hrun|]. split.
  - unfold added. rewrite count_gets_throttled, length_combine.
    rewrite Hrange, Hlen. apply Nat.min_id.
  - intros ->. unfold fetch_url_default. exact Hrun.
Qed.

(** C3. A first answer whose status is neither 200 nor 429 ends the call:
    one request was made, a message was printed, and [None] is returned. *)
Theorem fetch_url_other_status_no_retry
  (url : str) (max_retries : Z) (r : response) (w : world) :
  1 <= max_retries ->
  server (requests w) url = Response r ->
  status_code r <> 200 ->
  status_code r <> 429 ->
  fetch_url server sleep_max url max_retries w =
    (Return None,
     {| requests := requests w + 1;
        trace := trace w ++ [EvJitter; EvGet url;
                             EvPrint (MsgHttp (status_code r) 1)] |}).
Proof.
  intros Hmax Hsrv H200 H429. unfold fetch_url, py_range.
  replace (Z.to_nat (max_retries + 1 - 1)) with (S (Z.to_nat (max_retries - 1)))
    by lia.
  cbn [seq map fetch_loop].
  unfold bind at 1. cbn [emit].
  unfold bind at 1. unfold requests_get. cbn [requests trace].
  rewrite Hsrv.
  destruct (Z.eqb_spec (status_code r) 200) as [?|_]; [contradiction|].
  destruct (Z.eqb_spec (status_code r) 429) as [?|_]; [contradiction|].
  unfold bind at 1. cbn [emit requests trace]. unfold ret.
  f_equal. f_equal; [lia|].
  rewrite <- !app_assoc. reflexivity.
Qed.

End FetcherProperties.

Lemma fetch_url_throttled_until_ceiling_witness :
  fetch_url (answering throttling) one_day listing 5 fresh =
    (Return None,
     {| requests := 5;
        trace :=
          concat (map (throttled_attempt listing 5)
                      (combine [1; 2; 3; 4; 5] throttling)) |})
  /\ fetch_url_default (answering throttling) one_day listing fresh =
       fetch_url (answering throttling) one_day listing 5 fresh.
Proof.
  destruct (fetch_url_throttled_until_ceiling
              (answering throttling) one_day listing 5 throttling fresh)
    as (Hrun & _ & Hdefault).
  - reflexivity.
  - intros i r Hi. unfold answering. cbn [requests fresh Nat.add].
    now rewrite Hi.
  - unfold throttling.
    repeat (apply Forall_cons; [check_throttled|]). apply Forall_nil.
  - split; [exact Hrun|]. rewrite Hrun. now apply Hdefault.
Defined.

Lemma fetch_url_other_status_no_retry_witness :
  fetch_url (answering [service_unavailable]) one_day listing 5 fresh =
    (Return None,
     {| requests := 1;
        trace := [EvJitter; EvGet listing; EvPrint (MsgHttp 503 1)] |}).
Proof.
  apply (fetch_url_other_status_no_retry
           (answering [service_unavailable]) one_day listing 5
           service_unavailable fresh).
  - lia.
  - reflexivity.
  - discriminate.
  - discriminate.
Defined.

(** C4. [fetch_url] lets an exception out: a 429 answer whose Retry-After is
    an HTTP date makes [int] raise [ValueError] on the first attempt, after
    the message was printed and before any sleep or retry. *)
Theorem fetch_url_raises_on_date_retry_after :
  fetch_url (answering [retry_at_date]) one_day listing 5 fresh =
    (Raise ValueError,
     {| requests := 1;
        trace := [EvJitter; EvGet listing;
                  EvPrint (Msg429 1 5
                             (PyStr (py "Wed, 21 Oct 2015 07:28:00 GMT")))] |}).
Proof. vm_compute. reflexivity. Qed.

(** A 200 after two throttling answers: the text is returned at the third
    attempt, after the two delays. *)
Lemma fetch_url_succeeds_after_throttling :
  fetch_url (answering [too_many_requests None;
                        too_many_requests (Some (py "2")); ok_page])
            one_day listing 5 fresh
  = (Return (Some (py "<html>")),
     {| requests := 3;
        trace := [EvJitter; EvGet listing;
                  EvPrint (Msg429 1 5 (PyInt 30)); EvSleep 30;
                  EvJitter; EvGet listing;
                  EvPrint (Msg429 2 5 (PyStr (py "2"))); EvSleep 2;
                  EvJitter; EvGet listing] |}).
Proof. reflexivity. Qed.

(** ** Binary64 arithmetic: lemmas *)

(** [digits2_pos] is the number of bits of a positive number. *)
Lemma digits2_pos_bounds (p : positive) :
  2 ^ (Zpos (digits2_pos p) - 1) <= Zpos p < 2 ^ Zpos (digits2_pos p).
Proof.
  induction p as [p IH|p IH|]; cbn [digits2_pos].
  - rewrite Pos2Z.inj_succ, (Pos2Z.inj_xI p).
    replace (Z.succ (Zpos (digits2_pos p)) - 1) with (Zpos (digits2_pos p))
      by lia.
    rewrite Z.pow_succ_r by lia.
    assert (E : 2 ^ Zpos (digits2_pos p) = 2 * 2 ^ (Zpos (digits2_pos p) - 1))
      by (rewrite <- Z.pow_succ_r by lia; f_equal; lia).
    lia.
  - rewrite Pos2Z.inj_succ, (Pos2Z.inj_xO p).
    replace (Z.succ (Zpos (digits2_pos p)) - 1) with (Zpos (digits2_pos p))
      by lia.
    rewrite Z.pow_succ_r by lia.
    assert (E : 2 ^ Zpos (digits2_pos p) = 2 * 2 ^ (Zpos (digits2_pos p) - 1))
      by (rewrite <- Z.pow_succ_r by lia; f_equal; lia).
    lia.
  - cbn. lia.
Qed.

Lemma digits2_pos_unique (p : positive) (n : Z) :
  2 ^ (n - 1) <= Zpos p < 2 ^ n -> 0 < n -> Zpos (digits2_pos p) = n.
Proof.
  intros [Hlo Hhi] Hn. pose proof (digits2_pos_bounds p) as [Blo Bhi].
  destruct (Z.lt_trichotomy (Zpos (digits2_pos p)) n) as [Hlt|[Heq|Hgt]];
    [|exact Heq|].
  - assert (2 ^ Zpos (digits2_pos p) <= 2 ^ (n - 1))
      by (apply Z.pow_le_mono_r; lia). lia.
  - assert (2 ^ n <= 2 ^ (Zpos (digits2_pos p) - 1))
      by (apply Z.pow_le_mono_r; lia). lia.
Qed.

(** One step of the right shift halves the mantissa and keeps the bit that
    falls out, the former one going to the sticky bit. *)
Lemma shr_1_nonneg (m : Z) (r s : bool) :
  0 <= m ->
  shr_1 {| shr_m := m; shr_r := r; shr_s := s |}
  = {| shr_m := m / 2; shr_r := Z.odd m; shr_s := r || s |}.
Proof.
  intros Hm. rewrite <- Z.div2_div.
  destruct m as [|[p|p|]|p]; try reflexivity. lia.
Qed.

Lemma loc_of_shr_record_of_loc (m : Z) (l : location) :
  loc_of_shr_record (shr_record_of_loc m l) = l
  /\ shr_m (shr_record_of_loc m l) = m.
Proof. destruct l as [|[]]; split; reflexivity. Qed.

Lemma div_eucl_div_mod (a b : Z) : Z.div_eucl a b = (a / b, a mod b).
Proof. unfold Z.div, Z.modulo. now destruct (Z.div_eucl a b). Qed.

Lemma shr_1_of_loc (q : Z) (l : location) :
  0 <= q ->
  shr_1 (shr_record_of_loc q l)
  = {| shr_m := q / 2; shr_r := Z.odd q; shr_s := inexact l |}.
Proof.
  intros Hq. destruct l as [|[]]; cbn [shr_record_of_loc];
    now rewrite shr_1_nonneg.
Qed.

Lemma Zdigits2_53 (q : Z) : 2 ^ 52 <= q < 2 ^ 53 -> Zdigits2 q = 53.
Proof.
  intros H. destruct q as [|p|p]; try (cbn in H; lia).
  cbn [Zdigits2]. apply digits2_pos_unique; [exact H | lia].
Qed.

Lemma Zdigits2_54 (q : Z) : 2 ^ 53 <= q < 2 ^ 54 -> Zdigits2 q = 54.
Proof.
  intros H. destruct q as [|p|p]; try (cbn in H; lia).
  cbn [Zdigits2]. apply digits2_pos_unique; [exact H | lia].
Qed.

(** Normalising a mantissa between [2^52] and [2^53]. *)
Lemma shr_fexp_normal (m1 e : Z) :
  2 ^ 52 <= m1 <= 2 ^ 53 -> -1074 <= e ->
  exists m e2,
    shr_fexp 53 1024 m1 e loc_Exact
    = ({| shr_m := Zpos m; shr_r := false; shr_s := false |}, e2)
    /\ ((e2 = e /\ Zpos m = m1) \/ (e2 = e + 1 /\ 2 * Zpos m = m1)).
Proof.
  intros Hm He. unfold shr_fexp, fexp, emin.
  destruct (Z.eq_dec m1 (2 ^ 53)) as [->|Hne].
  - exists (4503599627370496%positive), (e + 1).
    rewrite Zdigits2_54 by (cbn; lia).
    replace (Z.max (54 + e - 53) (3 - 1024 - 53) - e) with 1 by lia.
    split; [|right; split; reflexivity].
    cbn [shr shr_record_of_loc iter_pos]. rewrite shr_1_nonneg by (cbn; lia).
    reflexivity.
  - rewrite Zdigits2_53 by lia.
    replace (Z.max (53 + e - 53) (3 - 1024 - 53) - e) with 0 by lia.
    destruct m1 as [|p|p]; try (cbn in Hm; lia).
    exists p, e. split; [reflexivity | left; split; reflexivity].
Qed.

Lemma round_nearest_even_cases (q : Z) (l : location) :
  q <= round_nearest_even q l <= q + 1
  /\ (l = loc_Exact -> round_nearest_even q l = q)
  /\ (l = loc_Inexact Gt -> round_nearest_even q l = q + 1).
Proof.
  destruct l as [|[]]; cbn [round_nearest_even];
    try destruct (Z.even q); repeat split; try lia; try discriminate; auto.
Qed.

(** The value [binary_round_aux] gives to a quotient of 53 or 54 bits:
    [m * 2 ^ e2], which is [m1 * 2 ^ e1] for the rounded mantissa [m1]. *)
Lemma binary_round_aux_53 (q e : Z) (l : location) :
  2 ^ 52 <= q < 2 ^ 53 -> -1074 <= e <= 900 ->
  exists m e2,
    binary_round_aux 53 1024 false q e l = S754_finite false m e2
    /\ ((e2 = e /\ Zpos m = round_nearest_even q l)
        \/ (e2 = e + 1 /\ 2 * Zpos m = round_nearest_even q l)).
Proof.
  intros Hq He. unfold binary_round_aux.
  assert (Hfirst : shr_fexp 53 1024 q e l = (shr_record_of_loc q l, e)).
  { unfold shr_fexp, fexp, emin. rewrite Zdigits2_53 by exact Hq.
    replace (Z.max (53 + e - 53) (3 - 1024 - 53) - e) with 0 by lia.
    reflexivity. }
  rewrite Hfirst.
  destruct (loc_of_shr_record_of_loc q l) as [-> ->].
  pose proof (round_nearest_even_cases q l) as (Hr & _).
  destruct (shr_fexp_normal (round_nearest_even q l) e) as (m & e2 & -> & Hm);
    [lia | lia |].
  exists m, e2. cbn [shr_m].
  replace (e2 <=? 1024 - 53) with true by (symmetry; apply Z.leb_le; lia).
  split; [reflexivity | exact Hm].
Qed.

Lemma binary_round_aux_54 (q e : Z) (l : location) :
  2 ^ 53 <= q < 2 ^ 54 -> -1074 <= e <= 900 ->
  let l' := loc_of_shr_record
              {| shr_m := q / 2; shr_r := Z.odd q; shr_s := inexact l |} in
  exists m e2,
    binary_round_aux 53 1024 false q e l = S754_finite false m e2
    /\ ((e2 = e + 1 /\ Zpos m = round_nearest_even (q / 2) l')
        \/ (e2 = e + 2 /\ 2 * Zpos m = round_nearest_even (q / 2) l')).
Proof.
  intros Hq He l'. unfold binary_round_aux.
  assert (Hfirst : shr_fexp 53 1024 q e l
                   = ({| shr_m := q / 2; shr_r := Z.odd q;
                         shr_s := inexact l |}, e + 1)).
  { unfold shr_fexp, fexp, emin. rewrite Zdigits2_54 by exact Hq.
    replace (Z.max (54 + e - 53) (3 - 1024 - 53) - e) with 1 by lia.
    cbn [shr iter_pos]. rewrite shr_1_of_loc by lia. reflexivity. }
  rewrite Hfirst. cbn [shr_m]. fold l'.
  pose proof (round_nearest_even_cases (q / 2) l') as (Hr & _).
  assert (Hhalf : 2 ^ 52 <= q / 2 < 2 ^ 53).
  { split.
    - apply Z.div_le_lower_bound; [lia|]. change (2 * 2 ^ 52) with (2 ^ 53). lia.
    - apply Z.div_lt_upper_bound; [lia|]. change (2 * 2 ^ 53) with (2 ^ 54). lia. }
  destruct (shr_fexp_normal (round_nearest_even (q / 2) l') (e + 1))
    as (m & e2 & -> & Hm); [lia | lia |].
  exists m, e2. cbn [shr_m].
  replace (e2 <=? 1024 - 53) with true by (symmetry; apply Z.leb_le; lia).
  split; [reflexivity|].
  destruct Hm as [[-> Hm]|[-> Hm]]; [left | right]; split; try lia; exact Hm.
Qed.

(** The division by 200 of an integer of at most 54 bits rounds a quotient
    taken at 61 bits. *)
Lemma SFdiv_by_200 (p : positive) :
  let D := Zpos (digits2_pos p) in
  D <= 54 ->
  SFdiv 53 1024 (S754_finite false p 0) (S754_finite false 200 0)
  = binary_round_aux 53 1024 false
      ((Zpos p * 2 ^ (61 - D)) / 200) (D - 61)
      (new_location 200 ((Zpos p * 2 ^ (61 - D)) mod 200)).
Proof.
  intros D HD. unfold SFdiv, SFdiv_core_binary. cbn [xorb].
  change (Zdigits2 (Zpos p)) with D. change (Zdigits2 200) with 8.
  unfold fexp, emin.
  replace (Z.min (Z.max (D + 0 - (8 + 0) - 53) (3 - 1024 - 53)) (0 - 0))
    with (D - 61) by lia.
  replace (0 - 0 - (D - 61)) with (61 - D) by lia.
  assert (HDpos : 0 < D) by (subst D; lia).
  destruct (61 - D) as [|s|s] eqn:E; try lia.
  rewrite Z.shiftl_mul_pow2 by lia. rewrite div_eucl_div_mod. reflexivity.
Qed.

Lemma new_location_200 (r : Z) :
  new_location 200 r
  = if r =? 0 then loc_Exact else loc_Inexact (2 * r ?= 200).
Proof. reflexivity. Qed.

(** The ceiling of [m1 / S] when [m1] is the quotient [P * S / 200] rounded
    to an integer that stays on its side of the integers. *)
Lemma ceil_of_rounded (P k f S m1 : Z) :
  P = 200 * k + f -> 0 <= f < 200 -> 0 < S ->
  (f = 0 -> m1 = k * S) ->
  (0 < f -> k * S < m1 <= (k + 1) * S) ->
  - ((- m1) / S) = - ((- P) / 200).
Proof.
  intros HP Hf HS Hzero Hpos.
  destruct (Z.eq_dec f 0) as [->|Hne].
  - rewrite (Hzero eq_refl), HP.
    replace (- (k * S)) with ((- k) * S) by lia.
    replace (- (200 * k + 0)) with ((- k) * 200) by lia.
    now rewrite !Z.div_mul by lia.
  - destruct (Hpos ltac:(lia)) as [Hlo Hhi].
    rewrite <- (Z.div_unique (- m1) S (- (k + 1)) ((k + 1) * S - m1)) by lia.
    rewrite <- (Z.div_unique (- P) 200 (- (k + 1)) (200 - f)) by lia.
    reflexivity.
Qed.

(** With [P = 200 * k + f] and a scale [S] of at least 128, the rounded
    mantissa is [k * S] when [f = 0] and lies above it, up to [(k + 1) * S],
    otherwise: for a quotient of 53 bits, and below for one of 54 bits. *)
Lemma rounded_53 (P S q r k f : Z) :
  P = 200 * k + f -> 0 <= f < 200 -> 128 <= S ->
  P * S = 200 * q + r -> 0 <= r < 200 ->
  let m1 := round_nearest_even q (new_location 200 r) in
  (f = 0 -> m1 = k * S) /\ (0 < f -> k * S < m1 <= (k + 1) * S).
Proof.
  intros HP Hf HS Hq Hr m1. subst m1 P. rewrite new_location_200.
  assert (HB : 0 <= f * S < 200 * S) by nia.
  assert (HB' : 0 < f -> 128 <= f * S) by nia.
  replace ((200 * k + f) * S) with (200 * (k * S) + f * S) in Hq by ring.
  replace ((k + 1) * S) with (k * S + S) by ring.
  set (A := k * S) in *. set (B := f * S) in *.
  pose proof (round_nearest_even_cases q
                (if r =? 0 then loc_Exact else loc_Inexact (2 * r ?= 200)))
    as (Hb & Hex & Hgt).
  split.
  - intros Hf0. assert (HB0 : B = 0) by (subst B; rewrite Hf0; lia).
    replace r with 0 by lia. replace q with A by lia. reflexivity.
  - intros Hfpos. specialize (HB' Hfpos).
    destruct (Z.eq_dec q A) as [->|Hne].
    + assert (r = B) by lia. subst r.
      destruct (Z.eqb_spec B 0) as [?|_]; [lia|].
      replace (2 * B ?= 200) with Gt in *
        by (symmetry; apply Z.compare_gt_iff; lia).
      rewrite Hgt by reflexivity. lia.
    + lia.
Qed.

Lemma rounded_54 (P S q r k f : Z) :
  P = 200 * k + f -> 0 <= f < 200 -> 0 < S -> (128 <= S \/ f = 0) ->
  P * (2 * S) = 200 * q + r -> 0 <= r < 200 ->
  let m1 := round_nearest_even (q / 2)
              (loc_of_shr_record
                 {| shr_m := q / 2; shr_r := Z.odd q;
                    shr_s := inexact (new_location 200 r) |}) in
  (f = 0 -> m1 = k * S) /\ (0 < f -> k * S < m1 <= (k + 1) * S).
Proof.
  intros HP Hf HS0 HS Hq Hr m1. subst m1 P. rewrite new_location_200.
  assert (HB : 0 <= f * S < 200 * S) by nia.
  assert (HB' : 0 < f -> 128 <= f * S) by nia.
  replace ((200 * k + f) * (2 * S)) with (400 * (k * S) + 2 * (f * S)) in Hq
    by ring.
  replace ((k + 1) * S) with (k * S + S) by ring.
  set (A := k * S) in *. set (B := f * S) in *.
  pose proof (Z.bit0_mod q) as Hodd. rewrite Z.bit0_odd in Hodd.
  pose proof (Z.div_mod q 2 ltac:(lia)) as Hdiv.
  set (q2 := q / 2) in *.
  assert (Hinexact : inexact (if r =? 0 then loc_Exact
                               else loc_Inexact (2 * r ?= 200))
                     = negb (r =? 0)) by now destruct (r =? 0).
  rewrite Hinexact.
  destruct (Z.odd q); cbn [Z.b2z] in Hodd; (split; [intros Hf0|intros Hfpos]).
  - assert (HB0 : B = 0) by (subst B; rewrite Hf0; lia). lia.
  - specialize (HB' Hfpos).
    assert (Hrne : q2 = A -> r <> 0) by lia.
    destruct (Z.eqb_spec r 0) as [Hr0|_]; cbn [negb loc_of_shr_record];
      cbn [round_nearest_even]; [destruct (Z.even q2)|]; lia.
  - assert (HB0 : B = 0) by (subst B; rewrite Hf0; lia).
    assert (r = 0 /\ q2 = A) as (Hr0 & HqA) by lia.
    rewrite HqA, Hr0. reflexivity.
  - specialize (HB' Hfpos).
    destruct (Z.eqb_spec r 0) as [Hr0|_]; cbn [negb loc_of_shr_record];
      cbn [round_nearest_even]; lia.
Qed.

(** The page count is the ceiling as long as the quotient has at most 46
    bits before the binary point. *)
Lemma total_pages_ceiling (total : Z) :
  0 <= total <= 200 * 2 ^ 46 ->
  total_pages total = Return (ceiling_div total RESULTS_PER_PAGE).
Proof.
  intros Htotal. destruct total as [|p|p]; [reflexivity | | lia].
  unfold total_pages, true_div, RESULTS_PER_PAGE.
  change (200 =? 0) with false. cbn iota.
  change (float_of_int (Zpos p)) with (S754_finite false p 0).
  change (float_of_int 200) with (S754_finite false 200 0).
  pose proof (digits2_pos_bounds p) as [Dlo Dhi].
  set (D := Zpos (digits2_pos p)) in *.
  assert (HD : 0 < D <= 54).
  { split; [subst D; lia|].
    destruct (Z.le_gt_cases D 54) as [?|Hgt]; [assumption|].
    assert (2 ^ 54 <= 2 ^ (D - 1)) by (apply Z.pow_le_mono_r; lia). lia. }
  rewrite SFdiv_by_200 by (fold D; lia). fold D.
  set (S' := 2 ^ (61 - D)).
  assert (HS' : S' * 2 ^ (D - 1) = 2 ^ 60 /\ S' * 2 ^ D = 2 ^ 61 /\ 0 < S').
  { subst S'. rewrite <- !Z.pow_add_r by lia.
    replace (61 - D + (D - 1)) with 60 by lia.
    replace (61 - D + D) with 61 by lia.
    repeat split. apply Z.pow_pos_nonneg; lia. }
  destruct HS' as (HS60 & HS61 & HSpos).
  assert (HPS : 2 ^ 60 <= Zpos p * S' < 2 ^ 61) by nia.
  pose proof (Z.div_mod (Zpos p * S') 200 ltac:(lia)) as Hqr.
  pose proof (Z.mod_pos_bound (Zpos p * S') 200 ltac:(lia)) as Hr.
  set (q := (Zpos p * S') / 200) in *.
  set (r := (Zpos p * S') mod 200) in *.
  pose proof (Z.div_mod (Zpos p) 200 ltac:(lia)) as Hkf.
  pose proof (Z.mod_pos_bound (Zpos p) 200 ltac:(lia)) as Hf.
  set (k := Zpos p / 200) in *. set (f := Zpos p mod 200) in *.
  assert (Hq : 2 ^ 52 <= q < 2 ^ 54) by lia.
  assert (Hceil : forall m e2 m1 S,
    0 < S ->
    (f = 0 -> m1 = k * S) -> (0 < f -> k * S < m1 <= (k + 1) * S) ->
    e2 < 0 ->
    (2 ^ (- e2) = S /\ Zpos m = m1) \/ (2 * 2 ^ (- e2) = S /\ 2 * Zpos m = m1) ->
    math_ceil (S754_finite false m e2)
    = Return (ceiling_div (Zpos p) 200)).
  { intros m e2 m1 S HS Hzero Hpos He2 Hval. unfold math_ceil, ceiling_div.
    replace (0 <=? e2) with false by (symmetry; apply Z.leb_gt; lia).
    f_equal.
    rewrite <- (ceil_of_rounded (Zpos p) k f S m1) by (auto; lia).
    destruct Hval as [[<- <-]|[<- <-]]; [reflexivity|].
    replace (- (2 * Zpos m)) with (2 * - Zpos m) by lia.
    rewrite Z.div_mul_cancel_l; [reflexivity | | lia].
    apply Z.pow_nonzero; lia. }
  destruct (Z.lt_ge_cases q (2 ^ 53)) as [Hlt|Hge].
  - destruct (binary_round_aux_53 q (D - 61) (new_location 200 r))
      as (m & e2 & -> & Hm); [lia | lia |].
    assert (HS128 : 128 <= S').
    { subst S'. change 128 with (2 ^ 7). apply Z.pow_le_mono_r; lia. }
    destruct (rounded_53 (Zpos p) S' q r k f) as [Hzero Hpos]; try lia.
    destruct Hm as [[-> Hm]|[-> Hm]].
    + apply (Hceil m (D - 61) _ S' HSpos Hzero Hpos); [lia|].
      left. split; [|exact Hm]. subst S'. f_equal. lia.
    + apply (Hceil m (D - 61 + 1) _ S' HSpos Hzero Hpos); [lia|].
      right. split; [|exact Hm]. subst S'.
      rewrite <- Z.pow_succ_r by lia. f_equal. lia.
  - destruct (binary_round_aux_54 q (D - 61) (new_location 200 r))
      as (m & e2 & -> & Hm); [lia | lia |].
    set (S := 2 ^ (60 - D)).
    assert (HS : S' = 2 * S /\ 0 < S).
    { subst S S'. split; [|apply Z.pow_pos_nonneg; lia].
      rewrite <- Z.pow_succ_r by lia. f_equal. lia. }
    destruct HS as [HS HSpos2].
    assert (HS128 : 128 <= S \/ f = 0).
    { destruct (Z.eq_dec D 54) as [E|Hne].
      - right.
        assert (HS'v : S' = 128) by (subst S'; rewrite E; reflexivity).
        rewrite HS'v in Hqr. lia.
      - left. subst S. change 128 with (2 ^ 7). apply Z.pow_le_mono_r; lia. }
    destruct (rounded_54 (Zpos p) S q r k f) as [Hzero Hpos]; try lia.
    destruct Hm as [[-> Hm]|[-> Hm]].
    + apply (Hceil m (D - 61 + 1) _ S HSpos2 Hzero Hpos); [lia|].
      left. split; [|exact Hm]. subst S. f_equal. lia.
    + apply (Hceil m (D - 61 + 2) _ S HSpos2 Hzero Hpos); [lia|].
      right. split; [|exact Hm]. subst S.
      rewrite <- Z.pow_succ_r by lia. f_equal. lia.
Qed.

(** ** The orchestrator: properties *)

Lemma total_pages_450 : total_pages 450 = Return 3.
Proof. reflexivity. Qed.

Lemma total_pages_0 : total_pages 0 = Return 0.
Proof. reflexivity. Qed.

(** C6. The page count goes through a binary64 quotient, which is not the
    ceiling for every total: [14073748835532801 / 200] rounds down to
    [2 ^ 46], so [math.ceil] gives 70368744177664 where the ceiling is
    70368744177665, and the last page is not among the pages of
    [range(1, total_pages + 1)].  For 450 the count is 3. *)
Theorem total_pages_not_ceiling_of_large_total :
  total_pages 14073748835532801 = Return 70368744177664
  /\ ceiling_div 14073748835532801 RESULTS_PER_PAGE = 70368744177665
  /\ ~ In 70368744177665 (py_range 1 (70368744177664 + 1))
  /\ total_pages 450 = Return (ceiling_div 450 RESULTS_PER_PAGE).
Proof.
  split; [vm_compute; reflexivity|].
  split; [vm_compute; reflexivity|].
  split; [|vm_compute; reflexivity].
  rewrite in_py_range. lia.
Qed.

(** ** The file: lemmas *)

Lemma is_na_In (na_values : list str) (s : str) :
  is_na na_values s = true <-> In s na_values.
Proof.
  unfold is_na. rewrite existsb_exists. unfold str_eqb. split.
  - intros (x & Hx & Heq).
    destruct (list_eq_dec ascii_dec s x) as [->|]; [exact Hx | discriminate].
  - intros H. exists s. split; [exact H|].
    now destruct (list_eq_dec ascii_dec s s).
Qed.

(** Reading keeps the rows and the cells in their places. *)
Lemma read_row_nth_error (na_values : list str)
  (infers : list frame_cell -> bool) (sheet : list FrameRow) :
  forall (row : FrameRow) (k j : nat),
    nth_error (read_row na_values infers sheet k row) j
    = option_map (read_cell na_values infers (column_of (k + j) sheet))
                 (nth_error row j).
Proof.
  induction row as [|c row IH]; intros k j.
  - now destruct j.
  - destruct j as [|j]; cbn [read_row nth_error option_map].
    + now rewrite Nat.add_0_r.
    + rewrite IH. now rewrite Nat.add_succ_comm.
Qed.

Lemma read_row_length (na_values : list str)
  (infers : list frame_cell -> bool) (sheet : list FrameRow) :
  forall (row : FrameRow) (k : nat),
    length (read_row na_values infers sheet k row) = length row.
Proof.
  induction row as [|c row IH]; intros k; [reflexivity|].
  cbn [read_row length]. now rewrite IH.
Qed.

Lemma read_excel_length (na_values : list str)
  (infers : list frame_cell -> bool) (sheet : list FrameRow) :
  length (read_excel na_values infers sheet) = length sheet.
Proof. unfold read_excel. apply length_map. Qed.

Section OrchestratorProperties.

Variable quote_plus : str -> str.
Variable total_results : str -> outcome (option Z).
Variable page_result : str -> str -> outcome (list GameRecord).
Variable as_completed : list PageTask -> list PageTask.

(** The pool completes each submitted task once, in some order. *)
Hypothesis as_completed_permutation :
  forall tasks, Permutation (as_completed tasks) tasks.

Let run_genres := genres_loop quote_plus total_results page_result as_completed.
Let run_main := main quote_plus total_results page_result as_completed.

Variable na_values : list str.
Variable infers : list frame_cell -> bool.

Let run_main_on_file :=
  main_on_file quote_plus total_results page_result as_completed
               na_values infers.

(** C2. When the file exists and the run has a genre, the sheet written
    has [R + N] rows: the rows of the file as [pd.read_excel] read them,
    in their order, followed by the rows of the run in the order they were
    collected, and a second run adds its rows once more.  The rows of the
    file are not written as they were: a text that [pd.read_excel] takes
    for a missing value, as it does "N/A", is written as an empty cell.
    A text it does not take for one, in a column in which it infers no
    numbers, is written as it was, and so is a cell that holds no text. *)
Theorem main_on_file_blanks_missing_texts
  (genres : list str) (sheet : list FrameRow)
  (all_data : list GameRecord) (submitted : list PageTask) :
  genres <> [] ->
  run_genres genres [] [] = Return (all_data, submitted) ->
  let df_existing := read_excel na_values infers sheet in
  let df_combined := df_existing ++ DataFrame all_data in
  run_main_on_file genres (Some sheet) = Return (Some df_combined)
  /\ length df_combined = (length sheet + length all_data)%nat
  /\ skipn (length sheet) df_combined = DataFrame all_data
  /\ (forall i row,
        nth_error sheet i = Some row ->
        exists written,
          nth_error df_combined i = Some written
          /\ length written = length row
          /\ (forall j s,
                nth_error row j = Some (Str s) ->
                In s na_values ->
                nth_error written j = Some NaN)
          /\ (forall j s,
                nth_error row j = Some (Str s) ->
                ~ In s na_values ->
                infers (column_of j sheet) = false ->
                nth_error written j = Some (Str s))
          /\ (forall j c,
                nth_error row j = Some c ->
                (forall s, c <> Str s) ->
                nth_error written j = Some c))
  /\ (exists again,
        run_main_on_file genres (Some df_combined) = Return (Some again)
        /\ length again = (length sheet + 2 * length all_data)%nat).
Proof.
  intros Hgenres Hrun df_existing df_combined.
  subst run_genres run_main_on_file df_combined df_existing.
  assert (Hmain : forall table,
    main_on_file quote_plus total_results page_result as_completed
                 na_values infers genres (Some table)
    = Return (Some (read_excel na_values infers table
                    ++ DataFrame all_data))).
  { intros table. unfold main_on_file.
    destruct genres as [|g gs]; [contradiction|]. now rewrite Hrun. }
  assert (Hlen : length (read_excel na_values infers sheet
                         ++ DataFrame all_data)
                 = (length sheet + length all_data)%nat).
  { rewrite length_app, read_excel_length. unfold DataFrame.
    now rewrite length_map. }
  split; [apply Hmain|]. split; [exact Hlen|]. split; [|split].
  - rewrite skipn_app, read_excel_length, Nat.sub_diag.
    rewrite skipn_all2 by (rewrite read_excel_length; lia).
    reflexivity.
  - intros i row Hrow.
    exists (read_row na_values infers sheet 0 row).
    assert (Hcell : forall j,
              nth_error (read_row na_values infers sheet 0 row) j
              = option_map (read_cell na_values infers (column_of j sheet))
                           (nth_error row j))
      by (intros j; apply read_row_nth_error).
    split; [|split; [|split; [|split]]].
    + rewrite nth_error_app1
        by (rewrite read_excel_length; apply nth_error_Some; congruence).
      unfold read_excel. now rewrite nth_error_map, Hrow.
    + apply read_row_length.
    + intros j s Hj Hna. rewrite Hcell, Hj. cbn [option_map read_cell].
      apply is_na_In in Hna. now rewrite Hna.
    + intros j s Hj Hna Hinf. rewrite Hcell, Hj.
      cbn [option_map read_cell]. rewrite Hinf.
      destruct (is_na na_values s) eqn:E; [|reflexivity].
      apply is_na_In in E. contradiction.
    + intros j c Hj Hc. rewrite Hcell, Hj. cbn [option_map].
      destruct c as [s| |s]; [now destruct (Hc s) | reflexivity..].
  - eexists. split; [apply Hmain|].
    rewrite length_app, read_excel_length, Hlen. unfold DataFrame.
    rewrite length_map. lia.
Qed.

(** C9. A genre whose total is 0 has 0 pages: [range(1, 1)] is empty, no
    task is submitted, the genre adds no row, and the loop goes on with the
    next genre with the rows and the tasks it had. *)
Theorem genre_with_zero_results_adds_nothing
  (genre : str) (rest : list str) (all_data : list GameRecord)
  (submitted : list PageTask) :
  total_results genre = Return (Some 0) ->
  total_pages 0 = Return 0
  /\ map (submit quote_plus genre) (py_range 1 (0 + 1)) = []
  /\ collect page_result (as_completed []) [] = []
  /\ run_genres (genre :: rest) all_data submitted
     = run_genres rest all_data submitted.
Proof.
  intros Htotal. subst run_genres.
  assert (Hnone : as_completed [] = []).
  { apply Permutation_nil. apply Permutation_sym, as_completed_permutation. }
  repeat split.
  - now rewrite Hnone.
  - cbn [genres_loop]. rewrite Htotal, total_pages_0.
    change (py_range 1 (0 + 1)) with (@nil Z). cbn [map].
    rewrite Hnone. cbn [collect]. now rewrite !app_nil_r.
Qed.

End OrchestratorProperties.

Lemma main_on_file_blanks_missing_texts_witness :
  let new_rows := [demo_row action; demo_row action; demo_row action] in
  let sheet := DataFrame old_table in
  let blanked (genre : str) : FrameRow :=
    [Str (py "PS4"); Str (py "Super Game"); Str (py "Acme");
     Str (py "1.00m"); NaN; Str (py "01st Jan 20"); Str (py "02nd Feb 21");
     Str genre] in
  main_on_file same_text demo_totals demo_pages reversed
               pandas_na_values no_inference [action; puzzle] (Some sheet)
  = Return (Some ([blanked (py "Sports"); blanked (py "Racing")]
                  ++ DataFrame new_rows))
  /\ nth_error (frame_row (demo_row (py "Sports"))) 4 = Some (Str (py "N/A"))
  /\ exists written,
       nth_error (read_excel pandas_na_values no_inference sheet
                  ++ DataFrame new_rows) 0 = Some written
       /\ nth_error written 4 = Some NaN
       /\ nth_error written 1 = Some (Str (py "Super Game")).
Proof.
  intros new_rows sheet blanked.
  destruct (main_on_file_blanks_missing_texts
              same_text demo_totals demo_pages reversed
              pandas_na_values no_inference
              [action; puzzle] sheet new_rows
              (map (submit same_text action) [1; 2; 3]))
    as (Hmain & _ & _ & Hrows & _).
  - discriminate.
  - vm_compute. reflexivity.
  - split; [exact Hmain|]. split; [reflexivity|].
    destruct (Hrows 0%nat (frame_row (demo_row (py "Sports"))))
      as (written & Hwritten & _ & Hblank & Hkept & _); [reflexivity|].
    exists written. split; [exact Hwritten|]. split.
    + apply (Hblank 4%nat (py "N/A")); [reflexivity|].
      apply is_na_In. reflexivity.
    + apply (Hkept 1%nat (py "Super Game")); [reflexivity| |reflexivity].
      intros Hin. apply is_na_In in Hin. discriminate Hin.
Defined.

Lemma genre_with_zero_results_adds_nothing_witness :
  genres_loop same_text demo_totals demo_pages reversed
              [puzzle; action] [] []
  = genres_loop same_text demo_totals demo_pages reversed [action] [] [].
Proof.
  apply (genre_with_zero_results_adds_nothing
           same_text demo_totals demo_pages reversed).
  - intros tasks. apply Permutation_sym, Permutation_rev.
  - reflexivity.
Defined.

(** ** The document tree: lemmas *)

Lemma find_first_none (accepts : PageElement -> bool) (e : PageElement) :
  (forall d, In d (descendants e) -> accepts d = false) ->
  find_first accepts e = None.
Proof.
  unfold find_first, find_located, descendants.
  induction (walk [] e) as [|[d above] l IH]; intros H; [reflexivity|].
  cbn [find fst]. rewrite (H d) by now left.
  apply IH. intros d' Hd'. apply H. now right.
Qed.


Lemma find_located_none (accepts : PageElement -> bool) (e : PageElement) :
  (forall d, In d (descendants e) -> accepts d = false) ->
  find_located accepts e = None.
Proof.
  intros H. pose proof (find_first_none accepts e H) as Hn.
  unfold find_first in Hn. now destruct (find_located accepts e).
Qed.

Lemma find_located_split (accepts : PageElement -> bool)
  (e : PageElement) (before : list (PageElement * list PageElement))
  (d : PageElement) (above : list PageElement)
  (after : list (PageElement * list PageElement)) :
  walk [] e = before ++ (d, above) :: after ->
  (forall b, In b (map fst before) -> accepts b = false) ->
  accepts d = true ->
  find_located accepts e = Some (d, above).
Proof.
  unfold find_located. intros -> Hbefore Hd.
  induction before as [|[b up] before IH].
  - cbn [app find fst]. now rewrite Hd.
  - cbn [app find fst]. rewrite (Hbefore b) by now left.
    apply IH. intros b' Hb'. apply Hbefore. now right.
Qed.

Lemma find_parent_none (name : str) (ancestors : list PageElement) :
  (forall a, In a ancestors -> is_tag name a = false) ->
  find_parent name ancestors = None.
Proof.
  unfold find_parent. induction ancestors as [|a l IH]; intros H;
    [reflexivity|].
  cbn [find]. rewrite (H a) by now left.
  apply IH. intros a' Ha'. apply H. now right.
Qed.

Lemma PageElement_induction (P : PageElement -> Prop) :
  (forall s, P (NavigableString s)) ->
  (forall s, P (Comment s)) ->
  (forall name attrs contents,
      Forall P contents -> P (Tag name attrs contents)) ->
  forall e, P e.
Proof.
  intros Hstring Hcomment Htag. fix IH 1. intros [s|s|name attrs contents].
  - apply Hstring.
  - apply Hcomment.
  - apply Htag. induction contents as [|c cs IHcs]; constructor.
    + apply IH.
    + exact IHcs.
Qed.



(** ** Rows: lemmas *)

Lemma console_loop_first_img (cells : list PageElement) :
  (9 <= length cells)%nat ->
  console_loop cells [2%nat; 3%nat]
  = option_map (fun img => strip (alt_of img)) (first_console_img cells).
Proof.
  intros Hlen. unfold first_console_img. cbn [console_loop].
  replace (2 <? length cells)%nat with true
    by (symmetry; apply Nat.ltb_lt; lia).
  replace (3 <? length cells)%nat with true
    by (symmetry; apply Nat.ltb_lt; lia).
  destruct (find_first is_console_img (cell cells 2)); [reflexivity|].
  now destruct (find_first is_console_img (cell cells 3)).
Qed.

Lemma scrape_row_console_nonempty (genre : str) (row : PageElement)
  (record : GameRecord) :
  scrape_row genre row = Some record -> console record <> [].
Proof.
  unfold scrape_row.
  destruct (length (find_all (py "td") row) <? 9)%nat; [discriminate|].
  generalize (console_loop (find_all (py "td") row) [2%nat; 3%nat]).
  intros found H. injection H as <-.
  destruct found as [[|c s]|]; cbn; discriminate.
Qed.

Lemma rows_loop_Forall (P : GameRecord -> Prop) (genre : str) :
  (forall row record, scrape_row genre row = Some record -> P record) ->
  forall rows rows_data,
    Forall P rows_data -> Forall P (rows_loop genre rows rows_data).
Proof.
  intros HP. induction rows as [|row rows IH]; intros rows_data Hd;
    [exact Hd|].
  cbn [rows_loop]. destruct (scrape_row genre row) as [record|] eqn:Hrow.
  - apply IH. apply Forall_app. split; [exact Hd|].
    constructor; [|constructor]. now apply (HP row).
  - now apply IH.
Qed.

Lemma scrape_row_fields (genre : str) (row : PageElement) :
  let cells := find_all (py "td") row in
  (9 <= length cells)%nat ->
  scrape_row genre row =
    Some {| console :=
              match first_console_img cells with
              | Some img =>
                  match strip (alt_of img) with
                  | [] => py "Unknown"
                  | c :: s => c :: s
                  end
              | None => py "Unknown"
              end;
            game := strip (replace (py "Read the review") []
                                   (get_text_strip (cell cells 2)));
            publisher := get_text_strip (cell cells 4);
            total_shipped := get_text_strip (cell cells 5);
            total_sales := get_text_strip (cell cells 6);
            release_date := get_text_strip (cell cells 7);
            last_update := get_text_strip (cell cells 8);
            genre_of := genre |}.
Proof.
  intros cells Hlen. unfold scrape_row. fold cells.
  replace (length cells <? 9)%nat with false
    by (symmetry; apply Nat.ltb_ge; exact Hlen).
  rewrite console_loop_first_img by exact Hlen.
  destruct (first_console_img cells) as [img|]; cbn [option_map];
    [|reflexivity].
  now destruct (strip (alt_of img)).
Qed.

(** ** Count discovery and the page scraper: properties *)

Section PageProperties.

Variable server : nat -> str -> http_result.
Variable sleep_max : Z.
Variable BeautifulSoup : str -> PageElement.
Variable quote_plus : str -> str.




(** The filter of the results table: what it rejects. *)
Lemma is_pos_th_rejects (e : PageElement) :
  (forall t, is_tag (py "th") e = true -> dot_string e = Some t ->
             contains (py "Pos") t = false) ->
  is_pos_th e = false.
Proof.
  intros H. unfold is_pos_th.
  destruct (is_tag (py "th") e); [|reflexivity].
  destruct (dot_string e) as [t|]; [|reflexivity].
  rewrite (H t) by reflexivity. apply andb_false_r.
Qed.

Lemma is_pos_th_accepts (e : PageElement) (t : str) :
  is_tag (py "th") e = true ->
  dot_string e = Some t ->
  contains (py "Pos") t = true ->
  is_pos_th e = true.
Proof.
  intros Htag Hstring Hpos. unfold is_pos_th. rewrite Htag, Hstring, Hpos.
  destruct t as [|c t]; [discriminate Hpos | reflexivity].
Qed.

(** C8. A row with fewer than 9 cells gives no record and the loop goes on
    with the rows that follow.  When [fetch_url] returns, [scrape_page]
    returns a list: the empty one when the fetch gave no text, when no
    header cell of the page has a [.string] that contains "Pos", and when
    the first such cell is in no table.  When [fetch_url] raises,
    [scrape_page] does not return the empty list: it raises the same
    exception, as it does after a request that fails to connect and after
    a first answer of status 429 whose Retry-After [int] rejects. *)
Theorem scrape_page_degrades_unless_fetch_raises
  (url genre : str) (w : world) :
  let fetched := fetch_url server sleep_max url 5 w in
  let result := scrape_page server sleep_max BeautifulSoup url genre w in
  (forall row rest rows_data,
      (length (find_all (py "td") row) < 9)%nat ->
      scrape_row genre row = None
      /\ rows_loop genre (row :: rest) rows_data
         = rows_loop genre rest rows_data)
  /\ (forall html w',
        fetched = (Return html, w') ->
        (exists rows, result = (Return rows, w'))
        /\ (truthy html = None -> result = (Return [], w'))
        /\ (forall h,
              truthy html = Some h ->
              (forall e t, In e (descendants (BeautifulSoup h)) ->
                           is_tag (py "th") e = true ->
                           dot_string e = Some t ->
                           contains (py "Pos") t = false) ->
              result = (Return [], w'))
        /\ (forall h before header_th ancestors after t,
              truthy html = Some h ->
              walk [] (BeautifulSoup h)
              = before ++ (header_th, ancestors) :: after ->
              (forall e t', In e (map fst before) ->
                            is_tag (py "th") e = true ->
                            dot_string e = Some t' ->
                            contains (py "Pos") t' = false) ->
              is_tag (py "th") header_th = true ->
              dot_string header_th = Some t ->
              contains (py "Pos") t = true ->
              (forall a, In a ancestors -> is_tag (py "table") a = false) ->
              result = (Return [], w')))
  /\ (forall e w', fetched = (Raise e, w') -> result = (Raise e, w'))
  /\ (server (requests w) url = ConnectionFailed ->
      result
      = (Raise RequestException,
         {| requests := S (requests w);
            trace := trace w ++ [EvJitter; EvGet url] |}))
  /\ (forall r header,
        server (requests w) url = Response r ->
        status_code r = 429 ->
        retry_after r = Some header ->
        int_of_str header = None ->
        result
        = (Raise ValueError,
           {| requests := S (requests w);
              trace := trace w ++ [EvJitter; EvGet url;
                                   EvPrint (Msg429 1 5 (PyStr header))] |})).
Proof.
  intros fetched result. subst fetched result.
  unfold scrape_page, bind.
  split; [|split; [|split; [|split]]].
  - intros row rest rows_data Hshort.
    assert (Hrow : scrape_row genre row = None).
    { unfold scrape_row.
      now replace (length (find_all (py "td") row) <? 9)%nat with true
        by (symmetry; apply Nat.ltb_lt; exact Hshort). }
    split; [exact Hrow|]. cbn [rows_loop]. now rewrite Hrow.
  - intros html w' Hfetch. rewrite Hfetch.
    split; [|split; [|split]].
    + destruct (truthy html) as [h|]; eexists; reflexivity.
    + intros Hnone. now rewrite Hnone.
    + intros h Hh Habsent. rewrite Hh. unfold ret, rows_of_soup.
      rewrite find_located_none; [reflexivity|].
      intros d Hd. apply is_pos_th_rejects.
      intros t Hth Hstr. now apply (Habsent d t).
    + intros h before header_th ancestors after t
        Hh Hwalk Hbefore Htag Hstring Hpos Hno.
      rewrite Hh. unfold ret, rows_of_soup.
      rewrite (find_located_split is_pos_th _ before header_th ancestors
                 after Hwalk).
      * now rewrite find_parent_none.
      * intros b Hb. apply is_pos_th_rejects.
        intros t' Hth Hstr. now apply (Hbefore b t').
      * now apply (is_pos_th_accepts header_th t).
  - intros e w' Hfetch. now rewrite Hfetch.
  - intros Hsrv. unfold fetch_url.
    change (py_range 1 (5 + 1)) with [1; 2; 3; 4; 5].
    cbn [fetch_loop]. unfold bind at 1. cbn [emit].
    unfold bind at 1. unfold requests_get. cbn [requests trace].
    rewrite Hsrv. now rewrite <- app_assoc.
  - intros r header Hsrv Hst Hhdr Hint. unfold fetch_url.
    change (py_range 1 (5 + 1)) with [1; 2; 3; 4; 5].
    cbn [fetch_loop]. unfold bind at 1. cbn [emit].
    unfold bind at 1. unfold requests_get. cbn [requests trace].
    rewrite Hsrv, Hst. cbn [Z.eqb Pos.eqb].
    unfold bind at 1. cbn [emit requests trace].
    unfold bind at 1. unfold lift, headers_get_retry_after.
    rewrite Hhdr. cbn [py_int]. rewrite Hint.
    now rewrite <- !app_assoc.
Qed.

End PageProperties.

(** C10. The console of a record is never the empty string, for a row and
    for every record of a page; when the alt text of the image the console
    is read from strips to the empty string, the console is "Unknown". *)
Theorem scraped_console_is_never_empty (genre : str) :
  (forall row record,
      scrape_row genre row = Some record -> console record <> [])
  /\ (forall soup,
        Forall (fun record => console record <> [])
               (rows_of_soup genre soup))
  /\ (forall row record img,
        scrape_row genre row = Some record ->
        first_console_img (find_all (py "td") row) = Some img ->
        strip (alt_of img) = [] ->
        console record = py "Unknown").
Proof.
  split; [|split].
  - apply scrape_row_console_nonempty.
  - intros soup. unfold rows_of_soup.
    destruct (find_located is_pos_th soup) as [[header_th ancestors]|];
      [|constructor].
    destruct (find_parent (py "table") ancestors) as [data_table|];
      [|constructor].
    apply rows_loop_Forall; [|constructor].
    apply scrape_row_console_nonempty.
  - intros row record img Hrow Himg Hblank.
    destruct (Nat.ltb_spec (length (find_all (py "td") row)) 9) as [Hlt|Hge].
    + unfold scrape_row in Hrow.
      apply Nat.ltb_lt in Hlt. rewrite Hlt in Hrow. discriminate.
    + rewrite scrape_row_fields in Hrow by exact Hge.
      cbv zeta in Hrow. rewrite Himg, Hblank in Hrow.
      now injection Hrow as <-.
Qed.

(** C7. For a row with at least 9 cells the record exists; its game is the
    text of the name cell with every occurrence of "Read the review"
    removed and the result stripped, and its console is the stripped alt
    text of the first accepted image of cell 2, else of cell 3, or "Unknown"
    when there is no such image or that text is empty.  So a name cell
    reading "Super Game Read the review" with no accepted image gives game
    "Super Game" and console "Unknown", and when the phrase occurs at the
    end of the text only, the game is what precedes it, stripped. *)
Theorem scrape_row_game_and_console (genre : str) (row : PageElement) :
  let cells := find_all (py "td") row in
  let name_text := get_text_strip (cell cells 2) in
  (9 <= length cells)%nat ->
  exists record,
    scrape_row genre row = Some record
    /\ game record = strip (replace (py "Read the review") [] name_text)
    /\ console record
       = match first_console_img cells with
         | Some img =>
             match strip (alt_of img) with
             | [] => py "Unknown"
             | c :: s => c :: s
             end
         | None => py "Unknown"
         end
    /\ genre_of record = genre
    /\ (name_text = py "Super Game Read the review" ->
        (forall e, In e (descendants (cell cells 2)
                         ++ descendants (cell cells 3)) ->
                   is_console_img e = false) ->
        game record = py "Super Game" /\ console record = py "Unknown")
    /\ (forall name,
          name_text = name ++ py "Read the review" ->
          only_at_end (py "Read the review") name ->
          game record = strip name).
Proof.
  intros cells name_text Hlen. eexists.
  split; [apply scrape_row_fields; exact Hlen|].
  cbn [game console genre_of]. fold cells. fold name_text.
  split; [reflexivity|]. split; [reflexivity|]. split; [reflexivity|].
  split.
  - intros Htext Hnone. rewrite Htext. split; [reflexivity|].
    unfold first_console_img.
    rewrite !find_first_none; [reflexivity | |];
      intros d Hd; apply Hnone, in_or_app; auto.
  - intros name Htext Hend. rewrite Htext.
    now rewrite replace_only_at_end.
Qed.



Lemma scrape_page_degrades_unless_fetch_raises_witness :
  scrape_page (answering []) one_day parse_listing listing action fresh
  = (Raise RequestException,
     {| requests := 1; trace := [EvJitter; EvGet listing] |})
  /\ scrape_page (answering [retry_at_date]) one_day parse_listing
                 listing action fresh
     = (Raise ValueError,
        {| requests := 1;
           trace := [EvJitter; EvGet listing;
                     EvPrint
                       (Msg429 1 5
                          (PyStr (py "Wed, 21 Oct 2015 07:28:00 GMT")))] |})
  /\ scrape_page (answering [service_unavailable]) one_day parse_listing
                 listing action fresh
     = (Return [],
        {| requests := 1;
           trace := [EvJitter; EvGet listing; EvPrint (MsgHttp 503 1)] |})
  /\ scrape_row action short_row = None
  /\ rows_loop action [short_row; super_game_row] []
     = rows_loop action [super_game_row] [].
Proof.
  split; [|split; [|split]].
  - destruct (scrape_page_degrades_unless_fetch_raises
                (answering []) one_day parse_listing listing action fresh)
      as (_ & _ & _ & Hfailed & _).
    apply Hfailed. reflexivity.
  - destruct (scrape_page_degrades_unless_fetch_raises
                (answering [retry_at_date]) one_day parse_listing listing
                action fresh)
      as (_ & _ & _ & _ & Hdate).
    apply (Hdate retry_at_date (py "Wed, 21 Oct 2015 07:28:00 GMT"));
      reflexivity.
  - destruct (scrape_page_degrades_unless_fetch_raises
                (answering [service_unavailable]) one_day parse_listing
                listing action fresh)
      as (_ & Hreturned & _).
    destruct (Hreturned None
                {| requests := 1;
                   trace := [EvJitter; EvGet listing;
                             EvPrint (MsgHttp 503 1)] |})
      as (_ & Hnone & _); [reflexivity|].
    now apply Hnone.
  - destruct (scrape_page_degrades_unless_fetch_raises
                (answering [service_unavailable]) one_day parse_listing
                listing action fresh)
      as (Hshort & _).
    apply (Hshort short_row [super_game_row] []).
    cbn. lia.
Defined.

Lemma scraped_console_is_never_empty_witness :
  exists record,
    scrape_row action club_row = Some record
    /\ console record = py "Unknown"
    /\ console record <> [].
Proof.
  destruct (scraped_console_is_never_empty action)
    as (Hnonempty & _ & Hblank).
  eexists. split; [reflexivity|]. split.
  - apply (Hblank club_row _ (img " ")); reflexivity.
  - apply (Hnonempty club_row). reflexivity.
Defined.

Lemma scrape_row_game_and_console_witness :
  exists record,
    scrape_row action super_game_row = Some record
    /\ game record = py "Super Game"
    /\ console record = py "Unknown".
Proof.
  destruct (scrape_row_game_and_console action super_game_row)
    as (record & Hrow & _ & _ & _ & Hsuper & _).
  - cbn. lia.
  - exists record. split; [exact Hrow|]. apply Hsuper.
    + reflexivity.
    + intros e He. cbn in He.
      repeat (destruct He as [<- | He]; [reflexivity|]). contradiction.
Defined.

(** C7, as the specification words it, fails on a row whose name cell reads
    "Read the review Club" and holds an image with a blank alt text: the
    game is "Club", not the text without a suffix, and the console is
    "Unknown", not the alt text of the image. *)
Lemma scrape_row_not_as_specified :
  scrape_row action club_row
  = Some {| console := py "Unknown"; game := py "Club";
            publisher := py "Acme"; total_shipped := py "N/A";
            total_sales := py "0.10m"; release_date := py "03rd Mar 19";
            last_update := py "N/A"; genre_of := action |}
  /\ spec_game_name (get_text_strip (cell (find_all (py "td") club_row) 2))
     = py "Read the review Club"
  /\ spec_console (find_all (py "td") club_row) = py " "
  /\ ~ row_as_specified action club_row.
Proof.
  split; [reflexivity|]. split; [reflexivity|]. split; [reflexivity|].
  intros (record & Hrow & Hgame & _).
  assert (Hcode : game record = py "Club").
  { assert (Hrun : scrape_row action club_row
                   = Some {| console := py "Unknown"; game := py "Club";
                             publisher := py "Acme";
                             total_shipped := py "N/A";
                             total_sales := py "0.10m";
                             release_date := py "03rd Mar 19";
                             last_update := py "N/A"; genre_of := action |})
      by reflexivity.
    rewrite Hrun in Hrow. now injection Hrow as <-. }
  rewrite Hcode in Hgame. discriminate Hgame.
Qed.

(** The listing page as a whole: the short row is left out and the two
    other rows give their records, in the order of the table. *)
Lemma scrape_page_listing_rows :
  scrape_page (answering [ok_page]) one_day parse_listing
              (page_url same_text action 1) action fresh
  = (Return [{| console := py "Unknown"; game := py "Super Game";
                publisher := py "Acme"; total_shipped := py "1.00m";
                total_sales := py "N/A"; release_date := py "01st Jan 20";
                last_update := py "02nd Feb 21"; genre_of := action |};
             {| console := py "Unknown"; game := py "Club";
                publisher := py "Acme"; total_shipped := py "N/A";
                total_sales := py "0.10m"; release_date := py "03rd Mar 19";
                last_update := py "N/A"; genre_of := action |}],
     {| requests := 1;
        trace := [EvJitter; EvGet (page_url same_text action 1)] |}).
Proof. reflexivity. Qed.

(** ** The fetcher: further properties *)

Section FetcherSteps.

Variable server : nat -> str -> http_result.
Variable sleep_max : Z.

(** One turn of the loop, by the answer of the server. *)
Lemma fetch_loop_step (url : str) (max_retries attempt : Z)
  (rest : list Z) (w : world) :
  fetch_loop server sleep_max url max_retries (attempt :: rest) w =
  match server (requests w) url with
  | ConnectionFailed => (Raise RequestException, after_get url w)
  | Response resp =>
      if status_code resp =? 200
      then (Return (Some (text resp)), after_get url w)
      else if status_code resp =? 429
      then
        let told :=
          after_event
            (EvPrint (Msg429 attempt max_retries
                             (headers_get_retry_after resp)))
            (after_get url w) in
        match py_int (headers_get_retry_after resp) with
        | Raise e => (Raise e, told)
        | Return seconds =>
            if seconds * 10 ^ 9 <? - 2 ^ 63 then (Raise OverflowError, told)
            else if seconds <? 0 then (Raise ValueError, told)
            else if sleep_max <? seconds then (Raise OverflowError, told)
            else fetch_loop server sleep_max url max_retries rest
                   (after_event (EvSleep seconds) told)
        end
      else (Return None,
            after_event (EvPrint (MsgHttp (status_code resp) attempt))
                        (after_get url w))
  end.
Proof.
  cbn [fetch_loop]. unfold bind at 1. cbn [emit].
  unfold bind at 1. unfold requests_get. cbn [requests trace].
  unfold after_get, after_event.
  destruct (server (requests w) url) as [resp|]; [|reflexivity].
  destruct (status_code resp =? 200); [reflexivity|].
  destruct (status_code resp =? 429); [|reflexivity].
  unfold bind at 1. cbn [emit requests trace].
  unfold bind at 1. unfold lift.
  destruct (py_int (headers_get_retry_after resp)) as [seconds|e];
    [|reflexivity].
  unfold bind at 1. unfold time_sleep, raise.
  destruct (seconds * 10 ^ 9 <? - 2 ^ 63); [reflexivity|].
  destruct (seconds <? 0); [reflexivity|].
  destruct (sleep_max <? seconds); reflexivity.
Qed.

(** What a run of the loop adds to the world: effects at the end of the
    trace, among them one request for each request counted, and no more
    requests than attempts. *)
Lemma fetch_loop_adds (url : str) (max_retries : Z) :
  forall (attempts : list Z) (w w' : world) (o : outcome (option str)),
    fetch_loop server sleep_max url max_retries attempts w = (o, w') ->
    exists added,
      trace w' = trace w ++ added
      /\ requests w' = (requests w + count_gets added)%nat
      /\ (count_gets added <= length attempts)%nat.
Proof.
  induction attempts as [|attempt rest IH]; intros w w' o Hrun.
  - cbn in Hrun. injection Hrun as _ <-. exists [].
    rewrite app_nil_r. cbn. split; [reflexivity|]. split; [lia | lia].
  - rewrite fetch_loop_step in Hrun.
    assert (Hstop : forall (x : outcome (option str)) tail,
      (x, {| requests := S (requests w);
             trace := ((trace w ++ [EvJitter]) ++ [EvGet url]) ++ tail |})
      = (o, w') ->
      count_gets tail = 0%nat ->
      exists added,
        trace w' = trace w ++ added
        /\ requests w' = (requests w + count_gets added)%nat
        /\ (count_gets added <= length (attempt :: rest))%nat).
    { intros x tail E Htail. injection E as _ <-.
      exists ([EvJitter; EvGet url] ++ tail). cbn [trace requests].
      rewrite count_gets_app, Htail. cbn [length].
      split; [now rewrite <- !app_assoc|].
      split; [cbn; lia | cbn; lia]. }
    unfold after_event, after_get in Hrun. cbn [requests trace] in Hrun.
    destruct (server (requests w) url) as [resp|].
    + destruct (status_code resp =? 200).
      { eapply (Hstop _ []); [rewrite app_nil_r; exact Hrun | reflexivity]. }
      destruct (status_code resp =? 429).
      * cbv zeta in Hrun.
        destruct (py_int (headers_get_retry_after resp)) as [seconds|e].
        -- destruct (seconds * 10 ^ 9 <? - 2 ^ 63).
           { eapply (Hstop _ [EvPrint _]); [exact Hrun | reflexivity]. }
           destruct (seconds <? 0).
           { eapply (Hstop _ [EvPrint _]); [exact Hrun | reflexivity]. }
           destruct (sleep_max <? seconds).
           { eapply (Hstop _ [EvPrint _]); [exact Hrun | reflexivity]. }
           apply IH in Hrun. cbn [requests trace] in Hrun.
           destruct Hrun as (added & Ht & Hr & Hc).
           exists ([EvJitter; EvGet url;
                    EvPrint (Msg429 attempt max_retries
                                    (headers_get_retry_after resp));
                    EvSleep seconds] ++ added).
           rewrite count_gets_app. cbn [length].
           split; [rewrite Ht; now rewrite <- !app_assoc|].
           split; [rewrite Hr; cbn; lia | cbn; lia].
        -- eapply (Hstop _ [EvPrint _]); [exact Hrun | reflexivity].
      * eapply (Hstop _ [EvPrint _]); [exact Hrun | reflexivity].
    + eapply (Hstop _ []); [rewrite app_nil_r; exact Hrun | reflexivity].
Qed.

End FetcherSteps.

Lemma combine_app_l {A B} (l1 l2 : list A) (rs : list B) :
  length l1 = length rs -> combine (l1 ++ l2) rs = combine l1 rs.
Proof.
  revert rs. induction l1 as [|a l1 IH]; intros [|r rs] H;
    try discriminate H.
  - now destruct l2.
  - cbn. f_equal. apply IH. now injection H.
Qed.

Lemma py_range_cons (a b : Z) :
  a < b -> py_range a b = a :: py_range (a + 1) b.
Proof.
  intros H. unfold py_range.
  replace (Z.to_nat (b - a)) with (S (Z.to_nat (b - (a + 1)))) by lia.
  cbn [seq map]. f_equal; [lia|].
  rewrite <- seq_shift, map_map. apply map_ext. intros i. lia.
Qed.

Lemma py_range_empty (a b : Z) : b <= a -> py_range a b = [].
Proof.
  intros H. unfold py_range.
  now replace (Z.to_nat (b - a)) with 0%nat by lia.
Qed.

Lemma py_range_app (a b c : Z) :
  a <= b <= c -> py_range a c = py_range a b ++ py_range b c.
Proof.
  remember (Z.to_nat (b - a)) as n eqn:Hn. revert a Hn.
  induction n as [|n IH]; intros a Hn H.
  - replace b with a by lia. now rewrite (py_range_empty a a) by lia.
  - rewrite (py_range_cons a c), (py_range_cons a b) by lia.
    cbn [app]. f_equal. apply IH; lia.
Qed.

Section FetcherMore.

Variable server : nat -> str -> http_result.
Variable sleep_max : Z.

(** Throttled attempts at the head of the loop are passed one by one. *)
Lemma fetch_loop_past_throttled (url : str) (max_retries : Z) :
  forall (attempts : list Z) (rs : list response) (later : list Z)
         (w : world),
    length attempts = length rs ->
    (forall i r, nth_error rs i = Some r ->
                 server (requests w + i)%nat url = Response r) ->
    Forall (throttled sleep_max) rs ->
    fetch_loop server sleep_max url max_retries (attempts ++ later) w =
    fetch_loop server sleep_max url max_retries later
      {| requests := requests w + length rs;
         trace := trace w
                  ++ concat (map (throttled_attempt url max_retries)
                                 (combine attempts rs)) |}.
Proof.
  induction attempts as [|attempt attempts IH];
    intros [|r rs] later w Hlen Hsrv Hok; try discriminate Hlen.
  - cbn. destruct w as [n t]. cbn. now rewrite Nat.add_0_r, app_nil_r.
  - inversion Hok as [|? ? (Hst & Hnum & Hmax) Hok']; subst.
    pose proof (Hsrv 0%nat r eq_refl) as H0. rewrite Nat.add_0_r in H0.
    assert (Hint : py_int (headers_get_retry_after r) = Return (retry_delay r)).
    { unfold headers_get_retry_after, retry_delay.
      destruct (retry_after r) as [ds|]; cbn; [|reflexivity].
      now rewrite int_of_str_numeral. }
    assert (Hpos : 0 <= retry_delay r).
    { unfold retry_delay. destruct (retry_after r) as [ds|]; [|lia].
      apply digits_value_nonneg. apply Hnum. }
    cbn [app]. rewrite fetch_loop_step, H0, Hst. cbn [Z.eqb Pos.eqb].
    cbv zeta. rewrite Hint.
    destruct (Z.ltb_spec (retry_delay r * 10 ^ 9) (- 2 ^ 63)) as [?|_];
      [lia|].
    destruct (Z.ltb_spec (retry_delay r) 0) as [?|_]; [lia|].
    destruct (Z.ltb_spec sleep_max (retry_delay r)) as [?|_]; [lia|].
    rewrite IH with (rs := rs).
    + unfold after_event, after_get. cbn [requests trace].
      f_equal. f_equal.
      * cbn [length]. lia.
      * cbn [combine map concat throttled_attempt].
        rewrite <- !app_assoc. reflexivity.
    + now injection Hlen.
    + intros i r' Hi. unfold after_event, after_get. cbn [requests].
      replace (S (requests w) + i)%nat with (requests w + S i)%nat by lia.
      now apply Hsrv.
    + exact Hok'.
Qed.

Lemma fetch_loop_text_from_200 (url : str) (max_retries : Z) :
  forall (attempts : list Z) (w w' : world) (body : str),
    fetch_loop server sleep_max url max_retries attempts w
    = (Return (Some body), w') ->
    (requests w < requests w')%nat
    /\ (exists r, server (requests w' - 1)%nat url = Response r
                  /\ status_code r = 200 /\ text r = body)
    /\ (forall k, (requests w <= k < requests w' - 1)%nat ->
                  exists r, server k url = Response r
                            /\ status_code r = 429).
Proof.
  induction attempts as [|attempt rest IH]; intros w w' body Hrun.
  - discriminate Hrun.
  - rewrite fetch_loop_step in Hrun.
    destruct (server (requests w) url) as [resp|] eqn:Hsrv; [|discriminate].
    destruct (Z.eqb_spec (status_code resp) 200) as [H200|_].
    + injection Hrun as <- <-. unfold after_get. cbn [requests].
      replace (S (requests w) - 1)%nat with (requests w) by lia.
      split; [lia|]. split; [now exists resp|]. intros k Hk. lia.
    + destruct (Z.eqb_spec (status_code resp) 429) as [H429|_];
        [|discriminate].
      cbv zeta in Hrun.
      destruct (py_int (headers_get_retry_after resp)) as [seconds|e];
        [|discriminate].
      destruct (seconds * 10 ^ 9 <? - 2 ^ 63); [discriminate|].
      destruct (seconds <? 0); [discriminate|].
      destruct (sleep_max <? seconds); [discriminate|].
      apply IH in Hrun. unfold after_event, after_get in Hrun.
      cbn [requests] in Hrun. destruct Hrun as (Hlt & Hlast & Hearlier).
      split; [lia|]. split; [exact Hlast|].
      intros k Hk. destruct (Nat.eq_dec k (requests w)) as [->|Hne].
      * now exists resp.
      * apply Hearlier. lia.
Qed.

Lemma fetch_loop_none_reasons (url : str) (max_retries : Z) :
  forall (attempts : list Z) (w w' : world),
    fetch_loop server sleep_max url max_retries attempts w
    = (Return None, w') ->
    (forall k, (requests w <= k < requests w' - 1)%nat ->
               exists r, server k url = Response r /\ status_code r = 429)
    /\ ((requests w' = requests w + length attempts)%nat
         /\ (forall r, (requests w < requests w')%nat ->
                       server (requests w' - 1)%nat url = Response r ->
                       status_code r = 429)
        \/ (requests w < requests w')%nat
           /\ exists r, server (requests w' - 1)%nat url = Response r
                        /\ status_code r <> 200 /\ status_code r <> 429).
Proof.
  induction attempts as [|attempt rest IH]; intros w w' Hrun.
  - cbn in Hrun. injection Hrun as <-. split; [intros k Hk; lia|].
    left. split; [cbn; lia|]. intros r Hlt. lia.
  - rewrite fetch_loop_step in Hrun.
    destruct (server (requests w) url) as [resp|] eqn:Hsrv; [|discriminate].
    destruct (Z.eqb_spec (status_code resp) 200) as [H200|H200];
      [discriminate|].
    destruct (Z.eqb_spec (status_code resp) 429) as [H429|H429].
    + cbv zeta in Hrun.
      destruct (py_int (headers_get_retry_after resp)) as [seconds|e];
        [|discriminate].
      destruct (seconds * 10 ^ 9 <? - 2 ^ 63); [discriminate|].
      destruct (seconds <? 0); [discriminate|].
      destruct (sleep_max <? seconds); [discriminate|].
      apply IH in Hrun. unfold after_event, after_get in Hrun.
      cbn [requests] in Hrun. destruct Hrun as (Hearlier & Hlast).
      assert (Hmono : (S (requests w) <= requests w')%nat)
        by (destruct Hlast as [[E _]|[Hlt _]]; lia).
      split.
      * intros k Hk. destruct (Nat.eq_dec k (requests w)) as [->|Hne].
        -- now exists resp.
        -- apply Hearlier. lia.
      * destruct Hlast as [[E Hall]|[Hlt Hother]].
        -- left. split; [cbn [length]; lia|]. intros r _ Hr.
           destruct (Nat.eq_dec (requests w' - 1) (requests w)) as [Ek|Hne].
           ++ rewrite Ek, Hsrv in Hr. now injection Hr as <-.
           ++ apply Hall; [lia | exact Hr].
        -- right. split; [lia | exact Hother].
    + injection Hrun as <-. unfold after_event, after_get. cbn [requests].
      replace (S (requests w) - 1)%nat with (requests w) by lia.
      split; [intros k Hk; lia|].
      right. split; [lia|]. now exists resp.
Qed.

Lemma fetch_loop_returns (url : str) (max_retries : Z) :
  forall (attempts : list Z) (w : world),
    (forall k, (requests w <= k)%nat ->
               well_formed_answer sleep_max (server k url)) ->
    exists text w',
      fetch_loop server sleep_max url max_retries attempts w
      = (Return text, w').
Proof.
  induction attempts as [|attempt rest IH]; intros w Hwf.
  - now exists None, w.
  - rewrite fetch_loop_step.
    pose proof (Hwf (requests w) (Nat.le_refl _)) as Hfirst.
    destruct (server (requests w) url) as [resp|]; [|contradiction].
    destruct (status_code resp =? 200); [now eexists; eexists|].
    destruct (Z.eqb_spec (status_code resp) 429) as [H429|_];
      [|now eexists; eexists].
    destruct (Hfirst H429) as (_ & Hnum & Hmax). cbv zeta.
    assert (Hint : py_int (headers_get_retry_after resp)
                   = Return (retry_delay resp)).
    { unfold headers_get_retry_after, retry_delay.
      destruct (retry_after resp) as [ds|]; cbn; [|reflexivity].
      now rewrite int_of_str_numeral. }
    assert (Hpos : 0 <= retry_delay resp).
    { unfold retry_delay. destruct (retry_after resp) as [ds|]; [|lia].
      apply digits_value_nonneg. apply Hnum. }
    rewrite Hint.
    destruct (Z.ltb_spec (retry_delay resp * 10 ^ 9) (- 2 ^ 63)) as [?|_];
      [lia|].
    destruct (Z.ltb_spec (retry_delay resp) 0) as [?|_]; [lia|].
    destruct (Z.ltb_spec sleep_max (retry_delay resp)) as [?|_]; [lia|].
    apply IH. intros k Hk. apply Hwf.
    unfold after_event, after_get in Hk. cbn [requests] in Hk. lia.
Qed.

(** X1. Whatever the server answers, a call of [fetch_url] only adds
    effects at the end of the trace, counts one request for each
    [requests.get] among them, and makes at most [max_retries] requests. *)
Theorem fetch_url_requests_at_most_ceiling
  (url : str) (max_retries : Z) (w : world) :
  let w' := snd (fetch_url server sleep_max url max_retries w) in
  exists added,
    trace w' = trace w ++ added
    /\ requests w' = (requests w + count_gets added)%nat
    /\ (count_gets added <= Z.to_nat max_retries)%nat.
Proof.
  intros w'. subst w'. unfold fetch_url.
  destruct (fetch_loop server sleep_max url max_retries
              (py_range 1 (max_retries + 1)) w) as [o w'] eqn:Hrun.
  apply fetch_loop_adds in Hrun. destruct Hrun as (added & Ht & Hr & Hc).
  exists added. cbn [snd]. rewrite length_py_range in Hc.
  split; [exact Ht|]. split; [exact Hr|]. lia.
Qed.

(** X2. When [fetch_url] returns a text, it is the body of the last answer
    it got, that answer had status 200, and every answer before it in the
    call had status 429. *)
Theorem fetch_url_text_is_body_of_200
  (url : str) (max_retries : Z) (w w' : world) (body : str) :
  fetch_url server sleep_max url max_retries w = (Return (Some body), w') ->
  (requests w < requests w')%nat
  /\ (exists r, server (requests w' - 1)%nat url = Response r
                /\ status_code r = 200 /\ text r = body)
  /\ (forall k, (requests w <= k < requests w' - 1)%nat ->
                exists r, server k url = Response r /\ status_code r = 429).
Proof. apply fetch_loop_text_from_200. Qed.

(** X3. When [fetch_url] returns [None], every answer of the call but
    the last had status 429, and either all of its [max_retries] attempts
    were answered with 429, or its last answer had a status other than 200
    and 429. *)
Theorem fetch_url_none_after_ceiling_or_other_status
  (url : str) (max_retries : Z) (w w' : world) :
  fetch_url server sleep_max url max_retries w = (Return None, w') ->
  (forall k, (requests w <= k < requests w' - 1)%nat ->
             exists r, server k url = Response r /\ status_code r = 429)
  /\ ((requests w' = requests w + Z.to_nat max_retries)%nat
       /\ (forall r, (requests w < requests w')%nat ->
                     server (requests w' - 1)%nat url = Response r ->
                     status_code r = 429)
      \/ (requests w < requests w')%nat
         /\ exists r, server (requests w' - 1)%nat url = Response r
                      /\ status_code r <> 200 /\ status_code r <> 429).
Proof.
  unfold fetch_url. intros Hrun. apply fetch_loop_none_reasons in Hrun.
  rewrite length_py_range in Hrun.
  now replace (Z.to_nat (max_retries + 1 - 1)) with (Z.to_nat max_retries)
    in Hrun by lia.
Qed.

(** X4. After fewer throttling answers than [max_retries], each with a delay
    that is a duration, a 200 answer ends the call: the text is returned
    after one request more than the throttling answers, each delay having
    been slept before the next attempt. *)
Theorem fetch_url_recovers_after_throttling
  (url : str) (max_retries : Z) (rs : list response) (ok : response)
  (w : world) :
  Z.of_nat (length rs) < max_retries ->
  (forall i r, nth_error rs i = Some r ->
               server (requests w + i)%nat url = Response r) ->
  Forall (throttled sleep_max) rs ->
  server (requests w + length rs)%nat url = Response ok ->
  status_code ok = 200 ->
  fetch_url server sleep_max url max_retries w =
    (Return (Some (text ok)),
     {| requests := requests w + length rs + 1;
        trace := trace w
                 ++ concat (map (throttled_attempt url max_retries)
                                (combine (py_range 1 (max_retries + 1)) rs))
                 ++ [EvJitter; EvGet url] |}).
Proof.
  intros Hfew Hsrv Hok Hlast H200. unfold fetch_url.
  set (n := Z.of_nat (length rs)) in *.
  rewrite (py_range_app 1 (1 + n) (max_retries + 1)) by lia.
  assert (Hlen : length (py_range 1 (1 + n)) = length rs).
  { rewrite length_py_range. subst n. lia. }
  rewrite (fetch_loop_past_throttled url max_retries _ rs _ w Hlen Hsrv Hok).
  rewrite combine_app_l by exact Hlen.
  rewrite (py_range_cons (1 + n)) by lia.
  rewrite fetch_loop_step. cbn [requests]. rewrite Hlast, H200.
  cbn [Z.eqb Pos.eqb]. unfold after_get. cbn [requests trace].
  f_equal. f_equal; [lia|]. now rewrite <- !app_assoc.
Qed.

(** X5. With a ceiling of 0 or less the loop has no turn: [None] is
    returned and nothing is requested, slept or printed. *)
Theorem fetch_url_without_attempts (url : str) (max_retries : Z) (w : world) :
  max_retries <= 0 ->
  fetch_url server sleep_max url max_retries w = (Return None, w).
Proof.
  intros H. unfold fetch_url. now rewrite py_range_empty by lia.
Qed.

(** X6. A first answer of status 429 whose Retry-After is no duration
    makes [fetch_url] raise after one request, the message printed, nothing
    slept and no retry made: [ValueError] when [int] rejects the header or
    reads a negative number of at least -9223372036 seconds, and
    [OverflowError] when the number is below that, out of the range of the
    clock. *)
Theorem fetch_url_raises_on_bad_retry_after
  (url : str) (max_retries : Z) (r : response) (header : str) (e : exn)
  (w : world) :
  1 <= max_retries ->
  server (requests w) url = Response r ->
  status_code r = 429 ->
  retry_after r = Some header ->
  (e = ValueError
   /\ (int_of_str header = None
       \/ exists n, int_of_str header = Some n /\ -9223372036 <= n < 0)
   \/ e = OverflowError
      /\ exists n, int_of_str header = Some n /\ n < -9223372036) ->
  fetch_url server sleep_max url max_retries w =
    (Raise e,
     {| requests := requests w + 1;
        trace := trace w ++ [EvJitter; EvGet url;
                             EvPrint (Msg429 1 max_retries (PyStr header))]
     |}).
Proof.
  intros Hmax Hsrv Hst Hhdr Hbad. unfold fetch_url.
  rewrite py_range_cons by lia.
  rewrite fetch_loop_step, Hsrv, Hst. cbn [Z.eqb Pos.eqb]. cbv zeta.
  unfold headers_get_retry_after. rewrite Hhdr. cbn [py_int].
  unfold after_event, after_get. cbn [requests trace].
  assert (Hworld :
    {| requests := S (requests w);
       trace := ((trace w ++ [EvJitter]) ++ [EvGet url])
                ++ [EvPrint (Msg429 1 max_retries (PyStr header))] |}
    = {| requests := requests w + 1;
         trace := trace w ++ [EvJitter; EvGet url;
                              EvPrint (Msg429 1 max_retries (PyStr header))]
      |}).
  { f_equal; [lia | now rewrite <- !app_assoc]. }
  rewrite Hworld.
  destruct Hbad as [(-> & [-> | (n & -> & Hn)]) | (-> & n & -> & Hn)].
  - reflexivity.
  - destruct (Z.ltb_spec (n * 10 ^ 9) (- 2 ^ 63)) as [?|_]; [lia|].
    now replace (n <? 0) with true by (symmetry; apply Z.ltb_lt; lia).
  - now destruct (Z.ltb_spec (n * 10 ^ 9) (- 2 ^ 63)) as [_|?]; [|lia].
Qed.

(** X7. [fetch_url] returns, a text or [None], whenever every answer is a
    response and every 429 among them asks for a delay that is a duration:
    the exceptions it lets out come from a failed connection or from a
    Retry-After that is no duration. *)
Theorem fetch_url_returns_on_well_formed_answers
  (url : str) (max_retries : Z) (w : world) :
  (forall k, (requests w <= k)%nat ->
             well_formed_answer sleep_max (server k url)) ->
  exists text w',
    fetch_url server sleep_max url max_retries w = (Return text, w').
Proof. apply fetch_loop_returns. Qed.

End FetcherMore.

(** ** Python strings: stripping *)

Lemma drop_while_starts (p : ascii -> bool) (s : str) (c : ascii) (t : str) :
  drop_while p s = c :: t -> p c = false.
Proof.
  induction s as [|d s IH]; [discriminate|].
  cbn. destruct (p d) eqn:Hd; [exact IH|].
  intros H. injection H as <- _. exact Hd.
Qed.

Lemma last_irrelevant (s : str) (c d e : ascii) :
  last (c :: s) d = last (c :: s) e.
Proof.
  revert c. induction s as [|b s IH]; intros c; [reflexivity|].
  cbn [last]. apply (IH b).
Qed.

Lemma last_app_cons (s : str) (d : ascii) (t : str) (c : ascii) :
  last (s ++ d :: t) c = last (d :: t) c.
Proof.
  induction s as [|b s IH]; [reflexivity|].
  cbn [app]. rewrite <- IH.
  destruct (s ++ d :: t) eqn:E; [destruct s; discriminate E | reflexivity].
Qed.

Lemma rev_starts_with_last (c : ascii) (s : str) :
  exists t, rev (c :: s) = last (c :: s) c :: t.
Proof.
  destruct (exists_last (l := c :: s) ltac:(discriminate)) as (front & z & E).
  rewrite E, rev_app_distr, last_last. cbn. now exists (rev front).
Qed.

(** What [strip] returns is trimmed, and a trimmed string is left as it
    is. *)
Lemma strip_with_ends (p : ascii -> bool) (s : str) :
  match strip_with p s with
  | [] => True
  | c :: t => p c = false /\ p (last (c :: t) c) = false
  end.
Proof.
  unfold strip_with.
  destruct (drop_while_suffix p (rev (drop_while p s))) as (skipped & Hrev).
  destruct (drop_while p (rev (drop_while p s))) as [|z v] eqn:Hv;
    [exact I|].
  pose proof (drop_while_starts p _ z v Hv) as Hz.
  assert (Hu : drop_while p s = rev (z :: v) ++ rev skipped).
  { rewrite <- rev_app_distr, <- Hrev. now rewrite rev_involutive. }
  cbn [rev] in *. destruct (rev v ++ [z]) as [|c t] eqn:Ht.
  - now destruct (rev v).
  - split.
    + cbn [app] in Hu. now apply (drop_while_starts p s c _ Hu).
    + rewrite <- Ht, last_last. exact Hz.
Qed.

Lemma strip_trimmed (s : str) : trimmed (strip s).
Proof.
  unfold trimmed, strip. pose proof (strip_with_ends is_space s) as H.
  now destruct (strip_with is_space s).
Qed.

Lemma trimmed_strip (s : str) : trimmed s -> strip s = s.
Proof.
  unfold trimmed, strip, strip_with. destruct s as [|c s]; [reflexivity|].
  intros [Hc Hlast]. rewrite drop_while_head by exact Hc.
  destruct (rev_starts_with_last c s) as (t & Hrev).
  rewrite Hrev, drop_while_head by exact Hlast.
  now rewrite <- Hrev, rev_involutive.
Qed.

Lemma trimmed_app (s t : str) :
  s <> [] -> trimmed s -> trimmed t -> trimmed (s ++ t).
Proof.
  destruct s as [|c s]; [contradiction|]. intros _ [Hc Hs] Ht.
  cbn [app trimmed]. split; [exact Hc|].
  destruct t as [|d t].
  - now rewrite app_nil_r.
  - change (c :: s ++ d :: t) with ((c :: s) ++ d :: t).
    rewrite last_app_cons.
    destruct Ht as [_ Ht]. now rewrite (last_irrelevant t d c d).
Qed.

Lemma trimmed_concat (l : list str) :
  Forall (fun t => t <> [] /\ trimmed t) l -> trimmed (concat l).
Proof.
  induction 1 as [|t l [Hne Ht] _ IH]; [exact I|].
  cbn [concat]. now apply trimmed_app.
Qed.

(** ** The document tree: induction *)

Lemma stripped_strings_trimmed (e : PageElement) :
  Forall (fun t => t <> [] /\ trimmed t) (stripped_strings e).
Proof.
  induction e as [s|s|name attrs contents IH] using PageElement_induction.
  - cbn [stripped_strings]. pose proof (strip_trimmed s) as Ht.
    destruct (strip s) as [|c t]; [constructor|].
    constructor; [|constructor]. split; [discriminate | exact Ht].
  - constructor.
  - cbn [stripped_strings].
    induction IH as [|c cs Hc _ IHcs]; [constructor|].
    apply Forall_app. split; [exact Hc | exact IHcs].
Qed.

(** The text [get_text(strip=True)] gives is trimmed. *)
Lemma get_text_strip_trimmed (e : PageElement) : trimmed (get_text_strip e).
Proof. apply trimmed_concat, stripped_strings_trimmed. Qed.

(** ** Regular expressions: what a match is *)

Lemma after_prefix_inv (l s rest : str) :
  after_prefix l s = Some rest -> s = l ++ rest.
Proof.
  revert s. induction l as [|a l IH]; intros s H.
  - cbn in H. now injection H as <-.
  - destruct s as [|b s]; [discriminate|]. cbn in H.
    destruct (Ascii.eqb_spec a b) as [<-|_]; [|discriminate].
    cbn. f_equal. now apply IH.
Qed.

Lemma star_then_inv (cls : ascii -> bool) (k : str -> option (list str)) :
  forall (s : str) (groups : list str),
    star_then cls k s = Some groups ->
    exists ws rest,
      s = ws ++ rest /\ Forall (fun c => cls c = true) ws
      /\ k rest = Some groups.
Proof.
  induction s as [|c s IH]; intros groups H.
  - exists [], []. now repeat split.
  - cbn in H. destruct (cls c) eqn:Hc.
    + destruct (star_then cls k s) as [found|] eqn:Hs.
      * injection H as <-. destruct (IH found eq_refl) as (ws & rest & E & Hws & Hk).
        exists (c :: ws), rest. rewrite E. repeat split; auto.
      * exists [], (c :: s). now repeat split.
    + exists [], (c :: s). now repeat split.
Qed.

Lemma plus_group_then_inv (cls : ascii -> bool)
  (k : str -> option (list str)) :
  forall (s taken : str) (groups : list str),
    plus_group_then cls k taken s = Some groups ->
    exists body rest others,
      s = body ++ rest /\ body <> []
      /\ Forall (fun c => cls c = true) body
      /\ k rest = Some others /\ groups = (taken ++ body) :: others.
Proof.
  induction s as [|c s IH]; intros taken groups H; [discriminate|].
  cbn in H. destruct (cls c) eqn:Hc; [|discriminate].
  destruct (plus_group_then cls k (taken ++ [c]) s) as [found|] eqn:Hs.
  - injection H as <-.
    destruct (IH _ _ Hs) as (body & rest & others & E & _ & Hb & Hk & Hg).
    exists (c :: body), rest, others. rewrite E, Hg, <- app_assoc.
    repeat split; auto. discriminate.
  - destruct (k s) as [others|] eqn:Hk; [|discriminate].
    injection H as <-. exists [c], s, others.
    repeat split; auto. discriminate.
Qed.

(** A match of the label pattern is the word, whitespace, and digits and
    commas between parentheses; the group is the digits and commas. *)
Lemma re_match_results_label_inv (s : str) (groups : list str) :
  re_match results_label s = Some groups ->
  exists ws body rest,
    s = py "Results:" ++ ws ++ py "(" ++ body ++ py ")" ++ rest
    /\ Forall (fun c => is_space c = true) ws
    /\ body <> []
    /\ Forall (fun c => digit_or_comma c = true) body
    /\ groups = [body].
Proof.
  unfold results_label. cbn [re_match]. intros H.
  destruct (after_prefix (py "Results:") s) as [s1|] eqn:H1; [|discriminate].
  apply after_prefix_inv in H1.
  apply star_then_inv in H. destruct H as (ws & s2 & E2 & Hws & H).
  cbn [re_match] in H.
  destruct (after_prefix (py "(") s2) as [s3|] eqn:H3; [|discriminate].
  apply after_prefix_inv in H3.
  apply plus_group_then_inv in H.
  destruct H as (body & s4 & others & E4 & Hne & Hbody & H & Hg).
  cbn [re_match] in H.
  destruct (after_prefix (py ")") s4) as [rest|] eqn:H5; [|discriminate].
  apply after_prefix_inv in H5. injection H as <-.
  exists ws, body, rest. subst. repeat split; auto.
Qed.

Lemma re_search_inv (items : list re_item) :
  forall (s : str) (groups : list str),
    re_search items s = Some groups ->
    exists before matched,
      s = before ++ matched /\ re_match items matched = Some groups.
Proof.
  induction s as [|c s IH]; intros groups H.
  - cbn in H. destruct (re_match items []) eqn:Hm; [|discriminate].
    injection H as <-. now exists [], [].
  - cbn [re_search] in H. destruct (re_match items (c :: s)) eqn:Hm.
    + injection H as <-. now exists [], (c :: s).
    + destruct (IH _ H) as (before & matched & E & Hmatch).
      exists (c :: before), matched. now rewrite E.
Qed.

(** [int] on a string of digits. *)
Lemma int_of_str_digits (ds : str) :
  ds <> [] -> Forall (fun c => is_digit c = true) ds ->
  int_of_str ds = if (length ds <=? max_str_digits)%nat
                  then Some (digits_value ds) else None.
Proof.
  intros Hne Hds. unfold int_of_str.
  rewrite strip_with_none
    by (eapply Forall_impl; [|exact Hds]; apply digit_not_int_space).
  destruct ds as [|c ds]; [contradiction|].
  assert (Hc : is_digit c = true) by now inversion Hds.
  destruct (digit_not_sign c Hc) as (-> & -> & _).
  now rewrite int_digits_all by (auto; now left).
Qed.

Lemma digits_of_digits (s : str) :
  Forall (fun c => is_digit c = true) (digits_of s).
Proof.
  unfold digits_of. apply Forall_forall. intros c Hc.
  now apply filter_In in Hc.
Qed.

(** ** Rows: the loop as a whole *)

Lemma options_loop_filter (options : list PageElement) :
  forall genres,
    options_loop options genres
    = genres ++ filter nonempty (map option_value options).
Proof.
  induction options as [|option options IH]; intros genres.
  - cbn. now rewrite app_nil_r.
  - cbn [options_loop map filter]. fold (option_value option).
    destruct (option_value option) as [|c v]; cbn [nonempty].
    + apply IH.
    + rewrite IH, <- app_assoc. reflexivity.
Qed.




Lemma scrape_row_trimmed (genre : str) (row : PageElement)
  (record : GameRecord) :
  scrape_row genre row = Some record ->
  genre_of record = genre /\ Forall trimmed (scraped_fields record).
Proof.
  intros Hrow.
  destruct (Nat.ltb_spec (length (find_all (py "td") row)) 9) as [Hlt|Hge].
  - unfold scrape_row in Hrow. apply Nat.ltb_lt in Hlt.
    rewrite Hlt in Hrow. discriminate.
  - rewrite scrape_row_fields in Hrow by exact Hge. cbv zeta in Hrow.
    assert (Hconsole : trimmed
      match first_console_img (find_all (py "td") row) with
      | Some img =>
          match strip (alt_of img) with
          | [] => py "Unknown"
          | c :: s => c :: s
          end
      | None => py "Unknown"
      end).
    { assert (Hunknown : trimmed (py "Unknown")) by (split; reflexivity).
      destruct (first_console_img (find_all (py "td") row)) as [img|];
        [|exact Hunknown].
      pose proof (strip_trimmed (alt_of img)) as Ht.
      now destruct (strip (alt_of img)). }
    injection Hrow as <-. split; [reflexivity|].
    unfold scraped_fields.
    cbn [console game publisher total_shipped total_sales release_date
         last_update].
    repeat (apply Forall_cons;
            [first [exact Hconsole | apply strip_trimmed
                   | apply get_text_strip_trimmed]|]).
    apply Forall_nil.
Qed.

Lemma truthy_inv (html : option str) (h : str) :
  truthy html = Some h -> html = Some h /\ h <> [].
Proof.
  destruct html as [[|c s]|]; try discriminate.
  intros H. injection H as <-. split; [reflexivity | discriminate].
Qed.

(** ** Genre discovery, count discovery and the page scraper: further
    properties *)

Section PagesMore.

Variable server : nat -> str -> http_result.
Variable sleep_max : Z.
Variable BeautifulSoup : str -> PageElement.
Variable quote_plus : str -> str.

(** A function that fetches once and then only computes makes the
    requests of its fetch. *)
Lemma fetch_then_pure_requests {A} (url : str) (k : option str -> M A)
  (w : world) :
  (forall html w1, snd (k html w1) = w1) ->
  let w' := snd (bind (fetch_url server sleep_max url 5) k w) in
  (requests w <= requests w' <= requests w + 5)%nat.
Proof.
  intros Hpure w'. subst w'. unfold bind, fetch_url.
  destruct (fetch_loop server sleep_max url 5 (py_range 1 (5 + 1)) w)
    as [o w1] eqn:Hrun.
  apply fetch_loop_adds in Hrun. destruct Hrun as (added & _ & Hr & Hc).
  rewrite length_py_range in Hc.
  assert (Hw : (requests w <= requests w1 <= requests w + 5)%nat) by lia.
  destruct o as [html|e]; [now rewrite Hpure | exact Hw].
Qed.


(** X9. The genres [get_genres] returns are the stripped values of the
    options of the first [select] named genre, in document order, the blank
    ones left out and repeated ones kept: each is non-empty and trimmed, and
    there are no more of them than options. *)
Theorem get_genres_returns_option_values
  (w w' : world) (html : option str) (h : str) (select : PageElement) :
  fetch_url server sleep_max genres_url 5 w = (Return html, w') ->
  truthy html = Some h ->
  find_first is_genre_select (BeautifulSoup h) = Some select ->
  let options := find_all (py "option") select in
  let genres := filter nonempty (map option_value options) in
  get_genres server sleep_max BeautifulSoup w = (Return genres, w')
  /\ Forall (fun g => g <> [] /\ trimmed g) genres
  /\ (length genres <= length options)%nat.
Proof.
  intros Hfetch Hh Hfind options genres. split; [|split].
  - unfold get_genres, bind. rewrite Hfetch, Hh. unfold ret, genres_of_soup.
    now rewrite Hfind, options_loop_filter.
  - subst genres. apply Forall_forall. intros g Hg.
    apply filter_In in Hg. destruct Hg as [Hin Hne].
    apply in_map_iff in Hin. destruct Hin as (option & <- & _).
    split; [now destruct (option_value option) | apply strip_trimmed].
  - subst genres. rewrite <- (length_map option_value options).
    apply filter_length_le.
Qed.

(** X10. A total [get_total_results] returns was read from a header cell:
    the page was fetched, [find] returned a cell whose text holds the label
    "Results: (N)", N being digits and commas with at least one digit, and
    the total is the number the digits spell; it is never negative. *)
Theorem get_total_results_comes_from_label
  (genre : str) (w w' : world) (total : Z) :
  get_total_results server sleep_max BeautifulSoup quote_plus genre w
  = (Return (Some total), w') ->
  0 <= total
  /\ exists h th before ws body rest,
       fetch_url server sleep_max (page_url quote_plus genre 1) 5 w
       = (Return (Some h), w')
       /\ find_first is_results_th (BeautifulSoup h) = Some th
       /\ get_text_strip th
          = before ++ py "Results:" ++ ws ++ py "(" ++ body ++ py ")" ++ rest
       /\ Forall (fun c => is_space c = true) ws
       /\ Forall (fun c => digit_or_comma c = true) body
       /\ digits_of body <> []
       /\ total = digits_value (digits_of body).
Proof.
  unfold get_total_results, bind. intros Hrun.
  destruct (fetch_url server sleep_max (page_url quote_plus genre 1) 5 w)
    as [[html|e] w1]; [|discriminate].
  destruct (truthy html) as [h|] eqn:Hh; [|discriminate].
  apply truthy_inv in Hh. destruct Hh as [-> _].
  unfold ret in Hrun. injection Hrun as Htotal <-.
  unfold total_of_soup in Htotal.
  destruct (find_first is_results_th (BeautifulSoup h)) as [th|] eqn:Hfind;
    [|discriminate].
  destruct (re_search results_label (get_text_strip th))
    as [[|group1 others]|] eqn:Hsearch; try discriminate.
  apply re_search_inv in Hsearch.
  destruct Hsearch as (before & matched & Etext & Hmatch).
  apply re_match_results_label_inv in Hmatch.
  destruct Hmatch as (ws & body & rest & -> & Hws & Hne & Hbody & Hgroups).
  injection Hgroups as -> _.
  rewrite replace_commas in Htotal by exact Hbody.
  assert (Hdigits : digits_of body <> []).
  { intros E. rewrite E in Htotal. discriminate. }
  rewrite int_of_str_digits in Htotal
    by (auto; apply digits_of_digits).
  destruct (length (digits_of body) <=? max_str_digits)%nat; [|discriminate].
  injection Htotal as <-.
  split; [apply digits_value_nonneg, digits_of_digits|].
  exists h, th, before, ws, body, rest. repeat split; auto.
Qed.

(** X11. [get_genres], [get_total_results] and [scrape_page] each make at
    most 5 requests, whatever the server answers. *)
Theorem page_functions_make_at_most_5_requests
  (url genre : str) (w : world) :
  (requests w
   <= requests (snd (get_genres server sleep_max BeautifulSoup w))
   <= requests w + 5)%nat
  /\ (requests w
      <= requests (snd (get_total_results server sleep_max BeautifulSoup
                                          quote_plus genre w))
      <= requests w + 5)%nat
  /\ (requests w
      <= requests (snd (scrape_page server sleep_max BeautifulSoup
                                    url genre w))
      <= requests w + 5)%nat.
Proof.
  split; [|split]; apply fetch_then_pure_requests;
    intros html w1; now destruct (truthy html).
Qed.

(** X12. The URLs of different pages of a genre differ. *)
Theorem page_urls_differ (genre : str) (page other : Z) :
  page <> other ->
  page_url quote_plus genre page <> page_url quote_plus genre other.
Proof.
  intros Hne H. apply Hne. clear Hne.
  unfold page_url, str_of_int, py in H.
  apply app_inv_head in H. apply app_inv_head in H.
  apply (f_equal string_of_list_ascii) in H.
  rewrite !string_of_list_ascii_of_string in H.
  apply (f_equal NilZero.int_of_string) in H.
  assert (Hnil : forall z, Z.to_int z <> Decimal.Pos Decimal.Nil
                           /\ Z.to_int z <> Decimal.Neg Decimal.Nil).
  { intros [|p|p]; split; try discriminate; intros E; injection E;
      apply DecimalPos.Unsigned.to_uint_nonnil. }
  rewrite !NilZero.isi in H by apply Hnil.
  injection H as H. now apply DecimalZ.to_int_inj.
Qed.


(** X14. Every record [scrape_page] returns carries the genre it was
    called with, and none of the fields read from the page starts or ends
    with whitespace. *)
Theorem scrape_page_records_are_trimmed
  (url genre : str) (w w' : world) (records : list GameRecord) :
  scrape_page server sleep_max BeautifulSoup url genre w
  = (Return records, w') ->
  Forall (fun record =>
            genre_of record = genre
            /\ Forall trimmed (scraped_fields record)) records.
Proof.
  unfold scrape_page, bind. intros Hrun.
  destruct (fetch_url server sleep_max url 5 w) as [[html|e] w1];
    [|discriminate].
  assert (Hrows : records = [] \/ exists h,
            records = rows_of_soup genre (BeautifulSoup h)).
  { destruct (truthy html) as [h|]; unfold ret in Hrun;
      injection Hrun as <- _; [right; now exists h | now left]. }
  destruct Hrows as [-> | (h & ->)]; [constructor|].
  unfold rows_of_soup.
  destruct (find_located is_pos_th (BeautifulSoup h))
    as [[header_th ancestors]|]; [|constructor].
  destruct (find_parent (py "table") ancestors) as [data_table|];
    [|constructor].
  apply rows_loop_Forall; [|constructor].
  apply scrape_row_trimmed.
Qed.

End PagesMore.

(** ** The orchestrator: further properties *)

Lemma py_range_NoDup (a b : Z) : NoDup (py_range a b).
Proof.
  unfold py_range. apply Finite.Injective_map_NoDup; [|apply seq_NoDup].
  intros i j H. lia.
Qed.

Lemma ceiling_div_bounds (total n : Z) :
  0 < n ->
  n * (ceiling_div total n - 1) < total <= n * ceiling_div total n.
Proof.
  intros Hn. unfold ceiling_div.
  pose proof (Z.div_mod (- total) n ltac:(lia)) as Hdiv.
  pose proof (Z.mod_pos_bound (- total) n Hn) as Hmod.
  nia.
Qed.

Section OrchestratorMore.

Variable quote_plus : str -> str.
Variable total_results : str -> outcome (option Z).
Variable page_result : str -> str -> outcome (list GameRecord).
Variable as_completed : list PageTask -> list PageTask.

Let run_genres := genres_loop quote_plus total_results page_result as_completed.
Let run_main := main quote_plus total_results page_result as_completed.

Lemma collect_flat_map (completed : list PageTask) :
  forall genre_data,
    collect page_result completed genre_data
    = genre_data ++ flat_map (rows_of_task page_result) completed.
Proof.
  induction completed as [|task completed IH]; intros genre_data.
  - cbn. now rewrite app_nil_r.
  - cbn [collect flat_map]. unfold rows_of_task at 1.
    destruct (page_result (task_url task) (task_genre task)).
    + rewrite IH, <- app_assoc. reflexivity.
    + apply IH.
Qed.

Lemma genres_loop_frame (genres : list str) :
  forall all_data submitted,
    run_genres genres all_data submitted
    = match run_genres genres [] [] with
      | Return (rows, tasks) => Return (all_data ++ rows, submitted ++ tasks)
      | Raise e => Raise e
      end.
Proof.
  subst run_genres.
  induction genres as [|genre genres IH]; intros all_data submitted.
  - cbn. now rewrite !app_nil_r.
  - cbn [genres_loop]. destruct (total_results genre) as [[total|]|e].
    + destruct (total_pages total) as [pages|e]; [|reflexivity].
      cbn [app]. rewrite IH. symmetry. rewrite IH.
      destruct (genres_loop quote_plus total_results page_result
                  as_completed genres [] []) as [[rows tasks]|e];
        [|reflexivity].
      now rewrite !app_assoc.
    + apply IH.
    + reflexivity.
Qed.

Lemma genres_loop_app (first_genres later_genres : list str) :
  forall all_data submitted,
    run_genres (first_genres ++ later_genres) all_data submitted
    = match run_genres first_genres all_data submitted with
      | Return (rows, tasks) => run_genres later_genres rows tasks
      | Raise e => Raise e
      end.
Proof.
  subst run_genres.
  induction first_genres as [|genre genres IH]; intros all_data submitted.
  - reflexivity.
  - cbn [app genres_loop]. destruct (total_results genre) as [[total|]|e].
    + destruct (total_pages total) as [pages|e]; [|reflexivity]. apply IH.
    + apply IH.
    + reflexivity.
Qed.

(** X15. The rows collected for a genre do not depend on the order in
    which the pool completes the pages, up to their own order: they are a
    permutation of the rows of the submitted pages, as many as those, and a
    page whose call raised adds none and takes none away. *)
Theorem collect_gathers_pages_in_any_order (tasks : list PageTask) :
  Permutation (as_completed tasks) tasks ->
  Permutation (collect page_result (as_completed tasks) [])
              (flat_map (rows_of_task page_result) tasks)
  /\ length (collect page_result (as_completed tasks) [])
     = length (flat_map (rows_of_task page_result) tasks)
  /\ (forall before task after e,
        page_result (task_url task) (task_genre task) = Raise e ->
        collect page_result (before ++ task :: after) []
        = collect page_result (before ++ after) []).
Proof.
  intros Hperm.
  assert (Hrows : Permutation (collect page_result (as_completed tasks) [])
                    (flat_map (rows_of_task page_result) tasks)).
  { rewrite collect_flat_map. cbn [app].
    now apply Permutation_flat_map. }
  split; [exact Hrows|]. split; [now apply Permutation_length|].
  intros before task after e Hraise.
  rewrite !collect_flat_map, !flat_map_app. cbn [app flat_map].
  unfold rows_of_task at 2. now rewrite Hraise.
Qed.

(** X16. The loop over the genres works genre after genre: running it over
    two lists in a row is running it over the first and, when that
    returns, over the second from the rows and tasks it gave; and the rows
    and tasks it starts from come out first and unchanged. *)
Theorem genres_loop_runs_genre_after_genre
  (first_genres later_genres : list str) (all_data : list GameRecord)
  (submitted : list PageTask) :
  run_genres (first_genres ++ later_genres) all_data submitted
  = match run_genres first_genres all_data submitted with
    | Return (rows, tasks) => run_genres later_genres rows tasks
    | Raise e => Raise e
    end
  /\ run_genres first_genres all_data submitted
     = match run_genres first_genres [] [] with
       | Return (rows, tasks) => Return (all_data ++ rows, submitted ++ tasks)
       | Raise e => Raise e
       end.
Proof. split; [apply genres_loop_app | apply genres_loop_frame]. Qed.

(** X17. For a genre whose total is at most [200 * 2 ^ 46], the tasks
    submitted are the pages 1 to the ceiling of [total / 200], in ascending
    order and each once, with the URL of the page; the last page is the
    first that reaches the total. *)
Theorem genre_pages_cover_total
  (genre : str) (total : Z) (all_data : list GameRecord)
  (submitted : list PageTask) :
  total_results genre = Return (Some total) ->
  0 <= total <= 200 * 2 ^ 46 ->
  let pages := ceiling_div total RESULTS_PER_PAGE in
  let tasks := map (submit quote_plus genre) (py_range 1 (pages + 1)) in
  run_genres [genre] all_data submitted
  = Return (all_data ++ collect page_result (as_completed tasks) [],
            submitted ++ tasks)
  /\ map task_page tasks = py_range 1 (pages + 1)
  /\ (forall task, In task tasks ->
        task_url task = page_url quote_plus genre (task_page task)
        /\ task_genre task = genre
        /\ 1 <= task_page task <= pages)
  /\ length tasks = Z.to_nat pages
  /\ NoDup (map task_page tasks)
  /\ RESULTS_PER_PAGE * (pages - 1) < total <= RESULTS_PER_PAGE * pages.
Proof.
  intros Htotal Hrange pages tasks.
  assert (Hpages : map task_page tasks = py_range 1 (pages + 1)).
  { subst tasks. rewrite map_map. cbn [submit task_page]. apply map_id. }
  split; [|split; [exact Hpages|split; [|split; [|split]]]].
  - subst run_genres. cbn [genres_loop].
    rewrite Htotal, total_pages_ceiling by exact Hrange. reflexivity.
  - intros task Hin. subst tasks. apply in_map_iff in Hin.
    destruct Hin as (page & <- & Hpage). apply in_py_range in Hpage.
    cbn [submit task_url task_genre task_page]. repeat split; lia.
  - rewrite <- (length_map task_page), Hpages, length_py_range. f_equal. lia.
  - rewrite Hpages. apply py_range_NoDup.
  - apply ceiling_div_bounds. reflexivity.
Qed.


(** X19. An exception while the count of a genre is read, or the overflow
    of its page count, ends [main] with that exception: the rows collected
    for the genres before it are not written. *)
Theorem main_writes_nothing_when_a_count_raises
  (first_genres later_genres : list str) (genre : str) (e : exn)
  (rows : list GameRecord) (tasks : list PageTask)
  (excel_file : option (list GameRecord)) :
  run_genres first_genres [] [] = Return (rows, tasks) ->
  (total_results genre = Raise e
   \/ exists total, total_results genre = Return (Some total)
                    /\ total_pages total = Raise e) ->
  run_main (first_genres ++ genre :: later_genres) excel_file = Raise e.
Proof.
  intros Hfirst Hraise.
  assert (Hloop : run_genres (first_genres ++ genre :: later_genres) [] []
                  = Raise e).
  { rewrite genres_loop_app, Hfirst. subst run_genres. cbn [genres_loop].
    destruct Hraise as [-> | (total & -> & ->)]; reflexivity. }
  subst run_main run_genres. unfold main.
  destruct (first_genres ++ genre :: later_genres) as [|g gs] eqn:E.
  - now destruct first_genres.
  - now rewrite Hloop.
Qed.

End OrchestratorMore.

(** ** Concrete runs of the further properties *)

Lemma fetch_url_text_is_body_of_200_witness :
  exists r,
    answering [too_many_requests None; too_many_requests (Some (py "2"));
               ok_page] 2 listing = Response r
    /\ status_code r = 200 /\ text r = py "<html>".
Proof.
  destruct (fetch_url_text_is_body_of_200
              (answering [too_many_requests None;
                          too_many_requests (Some (py "2")); ok_page])
              one_day listing 5 fresh _ _
              fetch_url_succeeds_after_throttling)
    as (_ & Hlast & _).
  exact Hlast.
Defined.

Lemma fetch_url_recovers_after_throttling_witness :
  fetch_url (answering [too_many_requests None;
                        too_many_requests (Some (py "2")); ok_page])
            one_day listing 5 fresh
  = (Return (Some (py "<html>")),
     {| requests := 3;
        trace := [EvJitter; EvGet listing;
                  EvPrint (Msg429 1 5 (PyInt 30)); EvSleep 30;
                  EvJitter; EvGet listing;
                  EvPrint (Msg429 2 5 (PyStr (py "2"))); EvSleep 2;
                  EvJitter; EvGet listing] |}).
Proof.
  apply (fetch_url_recovers_after_throttling
           (answering [too_many_requests None;
                       too_many_requests (Some (py "2")); ok_page])
           one_day listing 5
           [too_many_requests None; too_many_requests (Some (py "2"))]
           ok_page fresh).
  - cbn. lia.
  - intros i r Hi. unfold answering. cbn [requests fresh Nat.add].
    destruct i as [|[|i]]; cbn in Hi |- *; try (now injection Hi as <-).
    now destruct i.
  - repeat (apply Forall_cons; [check_throttled|]). apply Forall_nil.
  - reflexivity.
  - reflexivity.
Defined.

Lemma fetch_url_without_attempts_witness :
  fetch_url (answering [ok_page]) one_day listing 0 fresh
  = (Return None, fresh).
Proof. apply fetch_url_without_attempts. lia. Defined.

Lemma fetch_url_raises_on_bad_retry_after_witness :
  fetch_url (answering [too_many_requests (Some (py "1.5"))]) one_day
            listing 5 fresh
  = (Raise ValueError,
     {| requests := 1;
        trace := [EvJitter; EvGet listing;
                  EvPrint (Msg429 1 5 (PyStr (py "1.5")))] |})
  /\ fetch_url (answering [too_many_requests (Some (py "-5"))]) one_day
               listing 5 fresh
     = (Raise ValueError,
        {| requests := 1;
           trace := [EvJitter; EvGet listing;
                     EvPrint (Msg429 1 5 (PyStr (py "-5")))] |})
  /\ fetch_url (answering [too_many_requests (Some (py "-9223372037"))])
               one_day listing 5 fresh
     = (Raise OverflowError,
        {| requests := 1;
           trace := [EvJitter; EvGet listing;
                     EvPrint (Msg429 1 5 (PyStr (py "-9223372037")))] |}).
Proof.
  split; [|split].
  - apply (fetch_url_raises_on_bad_retry_after
             (answering [too_many_requests (Some (py "1.5"))]) one_day
             listing 5 (too_many_requests (Some (py "1.5"))) (py "1.5")
             ValueError fresh).
    + lia.
    + reflexivity.
    + reflexivity.
    + reflexivity.
    + left. split; [reflexivity|]. left. reflexivity.
  - apply (fetch_url_raises_on_bad_retry_after
             (answering [too_many_requests (Some (py "-5"))]) one_day
             listing 5 (too_many_requests (Some (py "-5"))) (py "-5")
             ValueError fresh).
    + lia.
    + reflexivity.
    + reflexivity.
    + reflexivity.
    + left. split; [reflexivity|]. right.
      exists (-5). split; [reflexivity | lia].
  - apply (fetch_url_raises_on_bad_retry_after
             (answering [too_many_requests (Some (py "-9223372037"))])
             one_day listing 5
             (too_many_requests (Some (py "-9223372037")))
             (py "-9223372037") OverflowError fresh).
    + lia.
    + reflexivity.
    + reflexivity.
    + reflexivity.
    + right. split; [reflexivity|].
      exists (-9223372037). split; [reflexivity | lia].
Defined.

Lemma fetch_url_returns_on_well_formed_answers_witness :
  exists text w',
    fetch_url (then_ok [too_many_requests None]) one_day listing 5 fresh
    = (Return text, w').
Proof.
  apply fetch_url_returns_on_well_formed_answers.
  intros k _. unfold then_ok, well_formed_answer.
  destruct k as [|[|k]]; cbn [nth].
  - intros _. check_throttled.
  - discriminate.
  - discriminate.
Defined.


Lemma get_genres_returns_option_values_witness :
  get_genres (answering [ok_page]) one_day parse_form fresh
  = (Return [py "Action"; py "Puzzle"; py "Action"],
     {| requests := 1; trace := [EvJitter; EvGet genres_url] |}).
Proof.
  destruct (get_genres_returns_option_values
              (answering [ok_page]) one_day parse_form fresh
              {| requests := 1; trace := [EvJitter; EvGet genres_url] |}
              (Some (py "<html>")) (py "<html>") genre_select
              eq_refl eq_refl eq_refl) as (Hrun & _).
  exact Hrun.
Defined.

Lemma get_total_results_comes_from_label_witness :
  0 <= 12345
  /\ exists h th before ws body rest,
       fetch_url (answering [ok_page]) one_day (page_url same_text action 1)
                 5 fresh
       = (Return (Some h),
          {| requests := 1;
             trace := [EvJitter; EvGet (page_url same_text action 1)] |})
       /\ find_first is_results_th (parse_listing h) = Some th
       /\ get_text_strip th
          = before ++ py "Results:" ++ ws ++ py "(" ++ body ++ py ")" ++ rest
       /\ Forall (fun c => is_space c = true) ws
       /\ Forall (fun c => digit_or_comma c = true) body
       /\ digits_of body <> []
       /\ 12345 = digits_value (digits_of body).
Proof.
  apply (get_total_results_comes_from_label
           (answering [ok_page]) one_day parse_listing same_text
           action fresh).
  reflexivity.
Defined.


Lemma scrape_page_records_are_trimmed_witness :
  Forall (fun record =>
            genre_of record = action
            /\ Forall trimmed (scraped_fields record))
         (flat_map (row_records action)
                   [short_row; super_game_row; club_row]).
Proof.
  apply (scrape_page_records_are_trimmed
           (answering [ok_page]) one_day parse_listing listing action
           fresh {| requests := 1; trace := [EvJitter; EvGet listing] |}).
  reflexivity.
Defined.

Lemma collect_gathers_pages_in_any_order_witness :
  let tasks := map (submit same_text action) [1; 2; 3] in
  Permutation (collect flaky_pages (reversed tasks) [])
              (flat_map (rows_of_task flaky_pages) tasks)
  /\ length (collect flaky_pages (reversed tasks) []) = 2%nat.
Proof.
  intros tasks.
  destruct (collect_gathers_pages_in_any_order flaky_pages reversed tasks)
    as (Hperm & Hlen & _).
  - apply Permutation_sym, Permutation_rev.
  - split; [exact Hperm | reflexivity].
Defined.

Lemma genre_pages_cover_total_witness :
  map task_page (map (submit same_text action) (py_range 1 (3 + 1)))
  = [1; 2; 3]
  /\ RESULTS_PER_PAGE * (3 - 1) < 450 <= RESULTS_PER_PAGE * 3.
Proof.
  destruct (genre_pages_cover_total
              same_text demo_totals demo_pages reversed action 450 [] [])
    as (_ & Hpages & _ & _ & _ & Hcover).
  - reflexivity.
  - split; [lia | apply Z.leb_le; reflexivity].
  - split; [exact Hpages | exact Hcover].
Defined.


Lemma main_writes_nothing_when_a_count_raises_witness :
  main same_text broken_totals demo_pages reversed [action; puzzle; action]
       (Some old_table)
  = Raise ValueError.
Proof.
  apply (main_writes_nothing_when_a_count_raises
           same_text broken_totals demo_pages reversed
           [action] [action] puzzle ValueError
           [demo_row action; demo_row action; demo_row action]
           (map (submit same_text action) [1; 2; 3])).
  - reflexivity.
  - left. reflexivity.
Defined.

Lemma fetch_url_none_after_ceiling_or_other_status_witness :
  exists r,
    answering [too_many_requests None; service_unavailable] 1 listing
    = Response r
    /\ status_code r <> 200 /\ status_code r <> 429.
Proof.
  destruct (fetch_url_none_after_ceiling_or_other_status
              (answering [too_many_requests None; service_unavailable])
              one_day listing 5 fresh
              {| requests := 2;
                 trace := [EvJitter; EvGet listing;
                           EvPrint (Msg429 1 5 (PyInt 30)); EvSleep 30;
                           EvJitter; EvGet listing;
                           EvPrint (MsgHttp 503 2)] |}
              eq_refl) as (_ & [[Hall _] | [_ Hother]]).
  - discriminate Hall.
  - exact Hother.
Defined.

Lemma page_urls_differ_witness :
  page_url same_text action 1 <> page_url same_text action 2.
Proof. apply page_urls_differ. lia. Defined.
